(** * Presence and message relay of [server.js]

    A shallow embedding of the Socket.IO part of [src/server.js]: the
    [users] registry (a JavaScript [Map]), the four event handlers that
    are installed on every socket ([user_connected], [send_message],
    [typing], [disconnect]) and the grace-period callback that the
    [disconnect] handler hands to [setTimeout].

    The handlers are written in a small state-and-exception monad so that
    each of them reads like its JavaScript original.  The transport
    ([io.emit], [socket.emit], [socket.broadcast.emit], [socket.to(..).emit],
    [io.sockets.sockets]) belongs to the Socket.IO library; it is modelled
    by the set of connected socket ids and by an outbox that records, in
    order, every packet together with the connection it is written to.
    Wall-clock time is a counter of milliseconds that [new Date()] reads
    and against which pending timers come due.  Of a [console.log] call
    only the evaluation of its argument is kept, where that can throw;
    what is printed is not part of the state.  The Express routes of the
    file play no part in the relay and are left out. *)

From stdpp Require Import base strings pretty list gmap.
From Stdlib Require Import ZArith NArith.

Local Set Warnings "-register-all".

(** ** JavaScript values

    Event payloads come from the client, so a handler may receive any
    JSON-like value.  Numbers are kept to the integers; an object is the
    list of its own properties, looked up by the first match. *)

Inductive jsval : Type :=
  | JUndefined
  | JNull
  | JBool (b : bool)
  | JNum (n : Z)
  | JStr (s : string)
  | JArr (items : list jsval)
  | JObj (fields : list (string * jsval)).

(** [if (v)], [v || w]: the falsy values are [undefined], [null], [false],
    [0] and the empty string; arrays and objects are always truthy. *)
Definition truthy (v : jsval) : bool :=
  match v with
  | JUndefined | JNull => false
  | JBool b => b
  | JNum n => negb (n =? 0)%Z
  | JStr s => negb (String.eqb s "")
  | JArr _ | JObj _ => true
  end.

(** [a || b] *)
Definition js_or (a b : jsval) : jsval := if truthy a then a else b.

(** Outcome of running JavaScript code: a value, or a thrown exception. *)
Inductive outcome (A : Type) : Type :=
  | Ok (a : A)
  | Throw (err : string).
Arguments Ok {A} a.
Arguments Throw {A} err.

(** The code ran to its end without throwing. *)
Definition completes {A} (o : outcome A) : Prop := ∃ a, o = Ok a.

Fixpoint assoc (k : string) (fields : list (string * jsval)) : option jsval :=
  match fields with
  | [] => None
  | (k', v) :: rest => if decide (k' = k) then Some v else assoc k rest
  end.

(** Reading property [k] of [v], as the destructuring
    [const { to, message } = data] does for each name: a [TypeError] on
    [undefined] and [null], [undefined] for a property that is not there.
    (Primitives and arrays have no property called [to] or [message].) *)
Definition get_prop (k : string) (v : jsval) : outcome jsval :=
  match v with
  | JUndefined | JNull => Throw "TypeError"
  | JObj fields => Ok (default JUndefined (assoc k fields))
  | _ => Ok JUndefined
  end.

(** [ToString], as a template literal applies it to [${v}].  An array is
    joined with commas, [undefined] and [null] elements giving the empty
    string.  An object is converted by the [toString] it finds: the
    inherited one gives ["[object Object]"]; an own property of that
    name, which in a JSON value is never a function, leaves the conversion
    without a result and it throws a [TypeError].  (Numbers are printed in
    decimal, as JavaScript does for the safe integers.) *)
Fixpoint to_string (v : jsval) : outcome string :=
  match v with
  | JUndefined => Ok "undefined"
  | JNull => Ok "null"
  | JBool b => Ok (if b then "true" else "false")
  | JNum n => Ok (pretty n)
  | JStr s => Ok s
  | JArr items =>
      (fix join (l : list jsval) : outcome string :=
         match l with
         | [] => Ok ""
         | x :: rest =>
             match
               match x with
               | JUndefined | JNull => Ok ""
               | _ => to_string x
               end
             with
             | Throw err => Throw err
             | Ok sx =>
                 match rest with
                 | [] => Ok sx
                 | _ :: _ =>
                     match join rest with
                     | Throw err => Throw err
                     | Ok sr => Ok (sx +:+ "," +:+ sr)
                     end
                 end
             end
         end) items
  | JObj fields =>
      match assoc "toString" fields with
      | Some _ => Throw "TypeError"
      | None => Ok "[object Object]"
      end
  end.

(** ** The JavaScript [Map]

    A [Map] iterates in insertion order; [set] on a key that is present
    replaces the value and keeps the key's position. *)
Module JsMap.
Abbreviation t V := (list (string * V)) (only parsing).

Section JsMap.
Context {V : Type}.

Definition empty : t V := [].

Fixpoint get (k : string) (m : t V) : option V :=
  match m with
  | [] => None
  | (k', v) :: m' => if decide (k' = k) then Some v else get k m'
  end.

Fixpoint set (k : string) (v : V) (m : t V) : t V :=
  match m with
  | [] => [(k, v)]
  | (k', v') :: m' =>
      if decide (k' = k) then (k, v) :: m' else (k', v') :: set k v m'
  end.

Definition delete (k : string) (m : t V) : t V :=
  filter (λ e, e.1 ≠ k) m.

Definition entries (m : t V) : list (string * V) := m.

Definition keys (m : t V) : list string := (entries m).*1.
End JsMap.
End JsMap.

(** ** Data of the program *)

(** The objects stored in [users]: [{ username, status }]. *)
Record user : Type := User { username : jsval; status : string }.

(** One element of the [users_list] payload: [{ id, username, status }]. *)
Record entry : Type :=
  Entry { id : string; entry_username : jsval; entry_status : string }.

(** The packets the server emits, one constructor per event name, with the
    fields of the payload object in source order. *)
Inductive packet : Type :=
  | user_status_changed (userId : string) (uname : jsval) (st : string) (timestamp : N)
  | users_list (roster : list entry)
  | receive_message (from : string) (uname : jsval) (message : jsval)
      (isPrivate : bool) (timestamp : N)
  | user_typing (userId : string) (uname : jsval) (isTyping : jsval).

(** The state the handlers act on. *)
Record state : Type := State {
  users : JsMap.t user;            (* const users = new Map() *)
  sockets : gset string;           (* ids of io.sockets.sockets *)
  timers : list (N * string);      (* pending setTimeout callbacks: due time, socket.id *)
  outbox : list (string * packet); (* packets written so far: receiving connection, packet *)
  clock : N                        (* the time new Date() reads, in ms *)
}.

Definition init : state :=
  {| users := JsMap.empty; sockets := ∅; timers := []; outbox := []; clock := 0 |}.

(** ** The handler monad: state passing, with exceptions *)

Definition M (A : Type) : Type := state → outcome (A * state).

Global Instance M_ret : MRet M := λ A a s, Ok (a, s).
Global Instance M_bind : MBind M := λ A B f m s,
  match m s with
  | Ok (a, s') => f a s'
  | Throw err => Throw err
  end.

Definition gets {A} (f : state → A) : M A := λ s, Ok (f s, s).
Definition modify (f : state → state) : M unit := λ s, Ok ((), f s).
Definition lift {A} (o : outcome A) : M A := λ s,
  match o with
  | Ok a => Ok (a, s)
  | Throw err => Throw err
  end.

(** The state a computation ends in. *)
Definition exec (m : M unit) (s : state) : outcome state :=
  match m s with
  | Ok (_, s') => Ok s'
  | Throw err => Throw err
  end.

(** *** The registry operations used by the handlers *)

Definition users_get (k : string) : M (option user) :=
  gets (λ s, JsMap.get k (users s)).

Definition users_set (k : string) (v : user) : M unit :=
  modify (λ s, {| users := JsMap.set k v (users s); sockets := sockets s;
                  timers := timers s; outbox := outbox s; clock := clock s |}).

Definition users_delete (k : string) : M unit :=
  modify (λ s, {| users := JsMap.delete k (users s); sockets := sockets s;
                  timers := timers s; outbox := outbox s; clock := clock s |}).

Definition users_entries : M (list (string * user)) :=
  gets (λ s, JsMap.entries (users s)).

(** [new Date()] *)
Definition new_Date : M N := gets clock.

(** *** The transport (Socket.IO 4)

    The program never calls [socket.join], so the only rooms are the ones
    every connected socket is in from the start: the room named by its own
    id. *)

(** Write packet [p] to each of the connections [rcpts]. *)
Definition send (rcpts : list string) (p : packet) : M unit :=
  modify (λ s, {| users := users s; sockets := sockets s; timers := timers s;
                  outbox := outbox s ++ ((λ r, (r, p)) <$> rcpts);
                  clock := clock s |}).

(** [io.sockets.sockets.has(id)] *)
Definition io_sockets_sockets_has (sid : string) : M bool :=
  gets (λ s, bool_decide (sid ∈ sockets s)).

(** [io.emit(ev, p)]: to every connected socket. *)
Definition io_emit (p : packet) : M unit :=
  live ← gets sockets;
  send (elements live) p.

(** [socket.emit(ev, p)]: to the socket's own connection.  A handler runs
    only while its socket is connected. *)
Definition socket_emit (sid : string) (p : packet) : M unit :=
  send [sid] p.

(** Every connected socket except [sid]. *)
Definition all_except (sid : string) (live : gset string) : list string :=
  filter (λ r, r ≠ sid) (elements live).

(** [socket.broadcast.emit(ev, p)]: to every connected socket except the
    emitting one. *)
Definition socket_broadcast_emit (sid : string) (p : packet) : M unit :=
  live ← gets sockets;
  send (all_except sid live) p.

(** [socket.to(room)]: an array names several rooms, anything else one. *)
Definition rooms_of (room : jsval) : list jsval :=
  match room with
  | JArr items => items
  | v => [v]
  end.

(** The sockets in a room: room names are socket ids, which are strings. *)
Definition room_members (live : gset string) (room : jsval) : list string :=
  match room with
  | JStr r => if decide (r ∈ live) then [r] else []
  | _ => []
  end.

(** The adapter visits the rooms in turn and skips a socket it has already
    written to. *)
Fixpoint first_visits (seen : list string) (ids : list string) : list string :=
  match ids with
  | [] => []
  | i :: rest =>
      if decide (i ∈ seen) then first_visits seen rest
      else i :: first_visits (i :: seen) rest
  end.

(** The sockets [socket.to(room)] addresses: those in the named rooms, each
    once, except the emitting socket; with no room named at all (an empty
    array) the adapter falls back to every socket but the emitting one. *)
Definition room_targets (sid : string) (room : jsval) (live : gset string)
  : list string :=
  match rooms_of room with
  | [] => all_except sid live
  | rooms => filter (λ r, r ≠ sid) (first_visits [] (rooms ≫= room_members live))
  end.

(** [socket.to(room).emit(ev, p)] *)
Definition socket_to_emit (sid : string) (room : jsval) (p : packet) : M unit :=
  live ← gets sockets;
  send (room_targets sid room live) p.

(** [setTimeout(callback, delay)], for the one callback of the program: the
    closure is represented by the [socket.id] it captures. *)
Definition setTimeout (sid : string) (delay : N) : M unit :=
  modify (λ s, {| users := users s; sockets := sockets s;
                  timers := timers s ++ [((clock s + delay)%N, sid)];
                  outbox := outbox s; clock := clock s |}).

(** ** The handlers *)

(** [([id, user]) => ({ id, username: user.username, status: user.status })] *)
Definition roster_entry (e : string * user) : entry :=
  {| id := e.1; entry_username := username e.2; entry_status := status e.2 |}.

(** [sender?.username || 'Unknown'] *)
Definition sender_name (sender : option user) : jsval :=
  js_or (from_option username JUndefined sender) (JStr "Unknown").

(** [console.log(line)]: the argument is evaluated, which may throw; the
    line printed is not kept. *)
Definition console_log (line : outcome string) : M unit :=
  _ ← lift line;
  mret ().

(** The template literal [`${username} (${socket.id}) connected`]. *)
Definition connected_line (username : jsval) (socket_id : string)
  : outcome string :=
  match to_string username with
  | Ok name => Ok (name +:+ " (" +:+ socket_id +:+ ") connected")
  | Throw err => Throw err
  end.

(** [socket.on('user_connected', (username) => ...)] *)
Definition on_user_connected (socket_id : string) (username : jsval) : M unit :=
  users_set socket_id (User username "online");;
  console_log (connected_line username socket_id);;
  now ← new_Date;
  io_emit (user_status_changed socket_id username "online" now);;
  es ← users_entries;
  socket_emit socket_id (users_list (roster_entry <$> es)).

(** [socket.on('send_message', (data) => ...)] *)
Definition on_send_message (socket_id : string) (data : jsval) : M unit :=
  to ← lift (get_prop "to" data);
  message ← lift (get_prop "message" data);
  sender ← users_get socket_id;
  if truthy to then
    now ← new_Date;
    socket_to_emit socket_id to
      (receive_message socket_id (sender_name sender) message true now)
  else
    now ← new_Date;
    socket_broadcast_emit socket_id
      (receive_message socket_id (sender_name sender) message false now).

(** [socket.on('typing', (isTyping) => ...)] *)
Definition on_typing (socket_id : string) (isTyping : jsval) : M unit :=
  user ← users_get socket_id;
  match user with
  | Some user =>
      socket_broadcast_emit socket_id
        (user_typing socket_id (username user) isTyping)
  | None => mret ()
  end.

(** The callback of the grace-period timer. *)
Definition grace_callback (socket_id : string) : M unit :=
  live ← io_sockets_sockets_has socket_id;
  if negb live then users_delete socket_id else mret ().

(** [socket.on('disconnect', () => ...)].  Its log line prints the stored
    name, which the log line of [user_connected] has already printed when
    the record was written (see [run_names_printable]); it is left out. *)
Definition on_disconnect (socket_id : string) : M unit :=
  user ← users_get socket_id;
  match user with
  | Some user =>
      users_set socket_id (User (username user) "offline");;
      now ← new_Date;
      io_emit (user_status_changed socket_id (username user) "offline" now);;
      setTimeout socket_id 60000
  | None => mret ()
  end.

(** ** The server as a transition system

    What can happen to the server: a client connects, a connected client
    emits one of the three events, a connection closes, a pending timer
    comes due, or time passes. *)

Inductive action : Type :=
  | Connection (sid : string)
  | UserConnected (sid : string) (username : jsval)
  | SendMessage (sid : string) (data : jsval)
  | Typing (sid : string) (isTyping : jsval)
  | Disconnect (sid : string)
  | Timeout (due : N) (sid : string)
  | Tick (d : N).

Definition with_sockets (f : gset string → gset string) (s : state) : state :=
  {| users := users s; sockets := f (sockets s); timers := timers s;
     outbox := outbox s; clock := clock s |}.

Definition with_timers (ts : list (N * string)) (s : state) : state :=
  {| users := users s; sockets := sockets s; timers := ts;
     outbox := outbox s; clock := clock s |}.

Definition with_clock (t : N) (s : state) : state :=
  {| users := users s; sockets := sockets s; timers := timers s;
     outbox := outbox s; clock := t |}.

(** Take the first pending timer equal to [t] off the list. *)
Fixpoint take_timer (t : N * string) (ts : list (N * string))
  : option (list (N * string)) :=
  match ts with
  | [] => None
  | t' :: ts' =>
      if decide (t' = t) then Some ts'
      else cons t' <$> take_timer t ts'
  end.

(** One transition; [None] when the action cannot happen in [s].  An event
    handler runs only for a connected socket; Socket.IO takes a closing
    socket out of [io.sockets.sockets] before it runs the [disconnect]
    handlers; the [connection] handler itself only logs and installs the
    handlers. *)
Definition step (s : state) (a : action) : option (outcome state) :=
  match a with
  | Connection sid =>
      if decide (sid ∈ sockets s) then None
      else Some (Ok (with_sockets (λ live, live ∪ {[sid]}) s))
  | UserConnected sid username =>
      if decide (sid ∈ sockets s)
      then Some (exec (on_user_connected sid username) s) else None
  | SendMessage sid data =>
      if decide (sid ∈ sockets s)
      then Some (exec (on_send_message sid data) s) else None
  | Typing sid isTyping =>
      if decide (sid ∈ sockets s)
      then Some (exec (on_typing sid isTyping) s) else None
  | Disconnect sid =>
      if decide (sid ∈ sockets s)
      then Some (exec (on_disconnect sid) (with_sockets (λ live, live ∖ {[sid]}) s))
      else None
  | Timeout due sid =>
      match take_timer (due, sid) (timers s) with
      | Some ts =>
          if decide (due ≤ clock s)%N
          then Some (exec (grace_callback sid) (with_timers ts s)) else None
      | None => None
      end
  | Tick d => Some (Ok (with_clock (clock s + d)%N s))
  end.

Fixpoint run (s : state) (tr : list action) : option (outcome state) :=
  match tr with
  | [] => Some (Ok s)
  | a :: tr' =>
      match step s a with
      | Some (Ok s') => run s' tr'
      | other => other
      end
  end.

(** ** Observations *)

(** The packets of [out] that were written to connection [c], in order. *)
Definition received (c : string) (out : list (string * packet)) : list packet :=
  (filter (λ d, d.1 = c) out).*2.

Definition is_users_list (p : packet) : bool :=
  match p with
  | users_list _ => true
  | _ => false
  end.

(** The registry agrees with the transport: every record is marked
    ['online'] or ['offline']; the record of an id that is not connected is
    marked ['offline'] and has a grace timer pending; and no pending timer
    is due later than 60000 ms from now. *)
Definition presence_consistent (s : state) : Prop :=
  (∀ sid u, JsMap.get sid (users s) = Some u →
            status u = "online" ∨ status u = "offline") ∧
  (∀ sid u, JsMap.get sid (users s) = Some u → sid ∉ sockets s →
            status u = "offline" ∧ ∃ due, (due, sid) ∈ timers s) ∧
  (∀ due sid, (due, sid) ∈ timers s → (due ≤ clock s + 60000)%N).

(** * Properties *)

(** ** The [Map] *)

Module JsMapFacts.
Section JsMapFacts.
Context {V : Type}.
Implicit Types (m : JsMap.t V) (k : string) (v : V).

Lemma get_set_eq k v m : JsMap.get k (JsMap.set k v m) = Some v.
Proof.
  induction m as [|[k' v'] m IH]; simpl.
  - by rewrite decide_True.
  - destruct (decide (k' = k)) as [->|Hne]; simpl.
    + by rewrite decide_True.
    + by rewrite decide_False.
Qed.

Lemma get_set_ne k k' v m :
  k' ≠ k → JsMap.get k' (JsMap.set k v m) = JsMap.get k' m.
Proof.
  intros Hne. induction m as [|[k0 v0] m IH]; simpl.
  - by rewrite decide_False.
  - destruct (decide (k0 = k)) as [->|Hk]; simpl.
    + by rewrite !decide_False.
    + by rewrite IH.
Qed.

Lemma set_absent k v m :
  JsMap.get k m = None → JsMap.set k v m = m ++ [(k, v)].
Proof.
  induction m as [|[k' v'] m IH]; simpl; [done|].
  destruct (decide (k' = k)); [done|]. intros H. by rewrite IH.
Qed.

Lemma keys_set_present k v m :
  is_Some (JsMap.get k m) → JsMap.keys (JsMap.set k v m) = JsMap.keys m.
Proof.
  unfold JsMap.keys, JsMap.entries.
  induction m as [|[k' v'] m IH]; simpl; [by intros [? ?]|].
  destruct (decide (k' = k)) as [->|Hne]; [done|].
  intros H. simpl. f_equal. by apply IH.
Qed.

Lemma get_Some_entries k v m :
  JsMap.get k m = Some v → (k, v) ∈ JsMap.entries m.
Proof.
  unfold JsMap.entries.
  induction m as [|[k' v'] m IH]; simpl; [done|].
  destruct (decide (k' = k)) as [->|Hne].
  - intros [= ->]. left.
  - intros H. right. by apply IH.
Qed.

Lemma get_Some_keys k m : is_Some (JsMap.get k m) ↔ k ∈ JsMap.keys m.
Proof.
  unfold JsMap.keys, JsMap.entries.
  induction m as [|[k' v'] m IH]; simpl.
  - split; [by intros [? ?]|by intros ?%elem_of_nil].
  - destruct (decide (k' = k)) as [->|Hne].
    + split; [left|eauto].
    + rewrite IH. split; [by right|].
      intros [?|?]%elem_of_cons; [congruence|done].
Qed.

Lemma get_delete_eq k m : JsMap.get k (JsMap.delete k m) = None.
Proof.
  unfold JsMap.delete.
  induction m as [|[k' v'] m IH]; [done|].
  rewrite filter_cons. simpl. destruct (decide (k' ≠ k)) as [Hne|Heq]; [|done].
  simpl. by rewrite decide_False.
Qed.

Lemma get_delete_ne k k' m :
  k' ≠ k → JsMap.get k' (JsMap.delete k m) = JsMap.get k' m.
Proof.
  intros Hne. unfold JsMap.delete.
  induction m as [|[k0 v0] m IH]; [done|].
  rewrite filter_cons. simpl. destruct (decide (k0 ≠ k)) as [Hk|Hk]; simpl.
  - by rewrite IH.
  - apply dec_stable in Hk as ->. by rewrite decide_False.
Qed.

(** A [Map] holds a key once; [set] and [delete] keep it that way. *)
Lemma keys_set_NoDup k v m :
  NoDup (JsMap.keys m) → NoDup (JsMap.keys (JsMap.set k v m)).
Proof.
  intros Hnd. destruct (JsMap.get k m) as [v0|] eqn:Hget.
  - by rewrite keys_set_present.
  - rewrite set_absent by done. unfold JsMap.keys, JsMap.entries.
    rewrite fmap_app. apply NoDup_app. split_and!; [done| |apply NoDup_singleton].
    intros x Hx Hk%list_elem_of_singleton. subst x.
    apply get_Some_keys in Hx as [v0 Hv0]. simpl in Hv0. congruence.
Qed.

Lemma keys_delete_NoDup k m :
  NoDup (JsMap.keys m) → NoDup (JsMap.keys (JsMap.delete k m)).
Proof.
  unfold JsMap.keys, JsMap.entries, JsMap.delete.
  induction m as [|[k' v'] m IH]; [done|].
  rewrite filter_cons. simpl. intros [Hk Hnd]%NoDup_cons.
  destruct (decide (k' ≠ k)); [|by apply IH].
  simpl. apply NoDup_cons. split; [|by apply IH].
  intros ([k0 v0] & -> & [_ Hin]%list_elem_of_filter)%list_elem_of_fmap.
  apply Hk. apply list_elem_of_fmap. by exists (k0, v0).
Qed.
End JsMapFacts.
End JsMapFacts.

(** ** What a connection receives *)

Lemma received_app c out1 out2 :
  received c (out1 ++ out2) = received c out1 ++ received c out2.
Proof. unfold received. by rewrite filter_app, fmap_app. Qed.

Lemma received_send_absent c p (l : list string) :
  c ∉ l → received c ((λ r, (r, p)) <$> l) = [].
Proof.
  unfold received. induction l as [|x l IH]; [done|].
  intros [Hx Hl]%not_elem_of_cons. rewrite fmap_cons, filter_cons. simpl.
  rewrite decide_False by done. by apply IH.
Qed.

(** A packet sent to a duplicate-free list of connections reaches each of
    them once and nobody else. *)
Lemma received_send c p (l : list string) :
  NoDup l →
  received c ((λ r, (r, p)) <$> l) = if decide (c ∈ l) then [p] else [].
Proof.
  intros Hnd. destruct (decide (c ∈ l)) as [Hin|Hnin];
    [|by apply received_send_absent].
  induction Hnd as [|x l Hx Hnd IH]; [by apply elem_of_nil in Hin|].
  unfold received in *. rewrite fmap_cons, filter_cons. simpl.
  destruct (decide (x = c)) as [->|Hne]; simpl.
  - f_equal. by apply (received_send_absent c p l).
  - apply IH. by apply elem_of_cons in Hin as [?|?].
Qed.

Lemma received_singleton c r p :
  received c [(r, p)] = if decide (r = c) then [p] else [].
Proof. unfold received. rewrite filter_cons. simpl. by destruct (decide (r = c)). Qed.

(** [io.emit] reaches every connected socket once. *)
Lemma received_io_emit c p (live : gset string) :
  received c ((λ r, (r, p)) <$> elements live) = if decide (c ∈ live) then [p] else [].
Proof.
  rewrite received_send by apply NoDup_elements.
  destruct (decide (c ∈ live)) as [Hin|Hnin].
  - rewrite decide_True; [done|]. by apply elem_of_elements.
  - rewrite decide_False; [done|]. by rewrite elem_of_elements.
Qed.

(** [socket.broadcast.emit] reaches every connected socket but the emitting
    one, once. *)
Lemma received_broadcast c sid p (live : gset string) :
  received c ((λ r, (r, p)) <$> all_except sid live)
  = if decide (c ∈ live ∧ c ≠ sid) then [p] else [].
Proof.
  unfold all_except.
  rewrite received_send by (apply NoDup_filter, NoDup_elements).
  destruct (decide (c ∈ live ∧ c ≠ sid)) as [[Hin Hne]|Hn].
  - rewrite decide_True; [done|].
    apply list_elem_of_filter. split; [done|]. by apply elem_of_elements.
  - rewrite decide_False; [done|].
    rewrite list_elem_of_filter, elem_of_elements. tauto.
Qed.

(** ** The handlers, computed *)

Lemma exec_on_user_connected sid name s :
  exec (on_user_connected sid name) s =
  match to_string name with
  | Ok _ =>
      Ok {| users := JsMap.set sid (User name "online") (users s);
            sockets := sockets s;
            timers := timers s;
            outbox :=
              (outbox s ++
                 ((λ r, (r, user_status_changed sid name "online" (clock s)))
                    <$> elements (sockets s))) ++
              [(sid, users_list
                       (roster_entry <$>
                          JsMap.entries
                            (JsMap.set sid (User name "online") (users s))))];
            clock := clock s |}
  | Throw err => Throw err
  end.
Proof.
  unfold exec, on_user_connected, mbind, M_bind, console_log, connected_line, lift.
  cbn. by destruct (to_string name).
Qed.

Lemma exec_on_user_connected_ok sid name s :
  completes (to_string name) →
  exec (on_user_connected sid name) s =
  Ok {| users := JsMap.set sid (User name "online") (users s);
        sockets := sockets s;
        timers := timers s;
        outbox :=
          (outbox s ++
             ((λ r, (r, user_status_changed sid name "online" (clock s)))
                <$> elements (sockets s))) ++
          [(sid, users_list
                   (roster_entry <$>
                      JsMap.entries (JsMap.set sid (User name "online") (users s))))];
        clock := clock s |}.
Proof. intros [str Hstr]. by rewrite exec_on_user_connected, Hstr. Qed.

Lemma exec_on_disconnect sid s :
  exec (on_disconnect sid) s =
  match JsMap.get sid (users s) with
  | Some u =>
      Ok {| users := JsMap.set sid (User (username u) "offline") (users s);
            sockets := sockets s;
            timers := timers s ++ [((clock s + 60000)%N, sid)];
            outbox :=
              outbox s ++
                ((λ r, (r, user_status_changed sid (username u) "offline" (clock s)))
                   <$> elements (sockets s));
            clock := clock s |}
  | None => Ok s
  end.
Proof.
  unfold exec, on_disconnect, mbind, M_bind, users_get, gets.
  destruct (JsMap.get sid (users s)); [reflexivity|]. by destruct s.
Qed.

Lemma exec_on_typing sid isTyping s :
  exec (on_typing sid isTyping) s =
  match JsMap.get sid (users s) with
  | Some u =>
      Ok {| users := users s; sockets := sockets s; timers := timers s;
            outbox :=
              outbox s ++
                ((λ r, (r, user_typing sid (username u) isTyping))
                   <$> all_except sid (sockets s));
            clock := clock s |}
  | None => Ok s
  end.
Proof.
  unfold exec, on_typing, mbind, M_bind, users_get, gets.
  destruct (JsMap.get sid (users s)); [reflexivity|]. by destruct s.
Qed.

Lemma exec_grace_callback sid s :
  exec (grace_callback sid) s =
  Ok (if decide (sid ∈ sockets s) then s
      else {| users := JsMap.delete sid (users s); sockets := sockets s;
              timers := timers s; outbox := outbox s; clock := clock s |}).
Proof.
  unfold exec, grace_callback, mbind, M_bind, io_sockets_sockets_has, gets.
  destruct (decide (sid ∈ sockets s)) as [Hin|Hnin].
  - rewrite bool_decide_eq_true_2 by done. by destruct s.
  - rewrite bool_decide_eq_false_2 by done. reflexivity.
Qed.

Lemma exec_on_send_message sid data to message s :
  get_prop "to" data = Ok to →
  get_prop "message" data = Ok message →
  exec (on_send_message sid data) s =
  Ok {| users := users s; sockets := sockets s; timers := timers s;
        outbox :=
          outbox s ++
            ((λ r, (r, receive_message sid (sender_name (JsMap.get sid (users s)))
                         message (truthy to) (clock s)))
               <$> (if truthy to then room_targets sid to (sockets s)
                    else all_except sid (sockets s)));
        clock := clock s |}.
Proof.
  intros Hto Hmsg.
  unfold exec, on_send_message, mbind, M_bind, lift. rewrite Hto, Hmsg. simpl.
  by destruct (truthy to).
Qed.

Lemma get_prop_defined k data :
  data ≠ JUndefined → data ≠ JNull → ∃ v, get_prop k data = Ok v.
Proof. destruct data; simpl; eauto; congruence. Qed.

(** A message addressed to the id of another socket goes to that socket if
    it is connected, and nowhere otherwise. *)
Lemma room_targets_id A B (live : gset string) :
  A ≠ B →
  room_targets A (JStr B) live = if decide (B ∈ live) then [B] else [].
Proof.
  intros Hne. unfold room_targets. simpl.
  destruct (decide (B ∈ live)); simpl; [|done].
  rewrite filter_cons. by rewrite decide_True by done.
Qed.

(** A message addressed to the sender's own id goes nowhere. *)
Lemma room_targets_self A (live : gset string) :
  room_targets A (JStr A) live = [].
Proof.
  unfold room_targets. simpl.
  destruct (decide (A ∈ live)); simpl; [|done].
  rewrite filter_cons. by rewrite decide_False by (intros H; by apply H).
Qed.

Lemma truthy_id B : B ≠ "" → truthy (JStr B) = true.
Proof.
  intros HB. simpl. apply negb_true_iff. by apply String.eqb_neq.
Qed.

(** ** Joining *)

(** C1. After the [user_connected] handler has run for socket [sid] with
    name [name], a name that can be printed (every string can), the
    registry holds [{ username: name, status: 'online' }] under [sid], the
    entries of the registry include it, and every connected socket has
    been sent the notification
    [{ userId: sid, username: name, status: 'online', timestamp }] (the
    joining socket is sent the users list after it). *)
Theorem user_connected_online sid name s :
  completes (to_string name) →
  ∃ s' new,
    exec (on_user_connected sid name) s = Ok s' ∧
    outbox s' = outbox s ++ new ∧
    JsMap.get sid (users s') = Some (User name "online") ∧
    (sid, User name "online") ∈ JsMap.entries (users s') ∧
    ∀ c, c ∈ sockets s →
      received c new =
        user_status_changed sid name "online" (clock s) ::
        (if decide (c = sid)
         then [users_list (roster_entry <$> JsMap.entries (users s'))]
         else []).
Proof.
  intros Hname.
  eexists _, _. split; [by apply exec_on_user_connected_ok|]. simpl.
  split; [by rewrite <- app_assoc|].
  split; [apply JsMapFacts.get_set_eq|].
  split; [apply JsMapFacts.get_Some_entries, JsMapFacts.get_set_eq|].
  intros c Hc. rewrite received_app, received_io_emit, received_singleton.
  rewrite decide_True by done. simpl.
  destruct (decide (c = sid)) as [->|Hne].
  - by rewrite decide_True.
  - by rewrite decide_False.
Qed.

Lemma user_connected_online_witness :
  let s := with_sockets (λ _, {["a"; "b"]}) init in
  completes (to_string (JStr "alice")) ∧
  ∃ s' new,
    exec (on_user_connected "a" (JStr "alice")) s = Ok s' ∧
    outbox s' = outbox s ++ new ∧
    JsMap.get "a" (users s') = Some (User (JStr "alice") "online") ∧
    ("a", User (JStr "alice") "online") ∈ JsMap.entries (users s') ∧
    ∀ c, c ∈ sockets s →
      received c new =
        user_status_changed "a" (JStr "alice") "online" (clock s) ::
        (if decide (c = "a")
         then [users_list (roster_entry <$> JsMap.entries (users s'))]
         else []).
Proof.
  intros s.
  assert (completes (to_string (JStr "alice"))) as Hname
    by (eexists; reflexivity).
  split; [exact Hname|].
  apply (user_connected_online "a" (JStr "alice") s Hname).
Defined.

(** ** Routing messages *)

(** C2. A [send_message] whose [to] is the id [B] of a socket other than
    the sender's: if [B] is connected it is written exactly one
    [receive_message] packet, with [isPrivate: true], and no other
    connection (the sender included) is written anything; if [B] is not
    connected nothing at all changes, and the handler ends normally. *)
Theorem directed_route A B data message s :
  get_prop "to" data = Ok (JStr B) →
  get_prop "message" data = Ok message →
  B ≠ "" →
  A ≠ B →
  ∃ s' new,
    exec (on_send_message A data) s = Ok s' ∧
    outbox s' = outbox s ++ new ∧
    (B ∈ sockets s →
       received B new =
         [receive_message A (sender_name (JsMap.get A (users s))) message true (clock s)] ∧
       received A new = [] ∧
       ∀ c, c ≠ B → received c new = []) ∧
    (B ∉ sockets s → new = [] ∧ s' = s).
Proof.
  intros Hto Hmsg HB Hne. eexists _, _.
  split; [by apply exec_on_send_message|]. cbn [outbox]. split; [done|].
  rewrite truthy_id, room_targets_id by done.
  split.
  - intros Hin. rewrite decide_True by done. simpl.
    rewrite !received_singleton. rewrite decide_True by done.
    split; [done|]. split; [by rewrite decide_False|].
    intros c Hc. rewrite received_singleton. by rewrite decide_False.
  - intros Hnin. rewrite decide_False by done. simpl. split; [done|].
    rewrite app_nil_r. by destruct s.
Qed.

Lemma directed_route_witness :
  let s := with_sockets (λ _, {["a"; "b"; "c"]}) init in
  let data := JObj [("to", JStr "b"); ("message", JStr "hi")] in
  ∃ s' new,
    exec (on_send_message "a" data) s = Ok s' ∧
    outbox s' = outbox s ++ new ∧
    ("b" ∈ sockets s →
       received "b" new =
         [receive_message "a" (sender_name (JsMap.get "a" (users s))) (JStr "hi") true (clock s)] ∧
       received "a" new = [] ∧
       ∀ c, c ≠ "b" → received c new = []) ∧
    ("b" ∉ sockets s → new = [] ∧ s' = s).
Proof.
  intros s data.
  apply (directed_route "a" "b" data (JStr "hi") s);
    [reflexivity | reflexivity | discriminate | discriminate].
Defined.

(** C3. A [send_message] without a target ([to] absent or falsy) writes one
    [receive_message] packet with [isPrivate: false] to every connected
    socket other than the sender's, and none to the sender or to anyone
    who is not connected. *)
Theorem broadcast_route A data to message s :
  get_prop "to" data = Ok to →
  get_prop "message" data = Ok message →
  truthy to = false →
  ∃ s' new,
    exec (on_send_message A data) s = Ok s' ∧
    outbox s' = outbox s ++ new ∧
    received A new = [] ∧
    ∀ c, received c new =
           if decide (c ∈ sockets s ∧ c ≠ A)
           then [receive_message A (sender_name (JsMap.get A (users s))) message false (clock s)]
           else [].
Proof.
  intros Hto Hmsg Hfalsy. eexists _, _.
  split; [by apply exec_on_send_message|]. cbn [outbox]. split; [done|].
  rewrite Hfalsy. split.
  - rewrite received_broadcast. rewrite decide_False; [done|]. by intros [_ ?].
  - intros c. apply received_broadcast.
Qed.

Lemma broadcast_route_witness :
  let s := with_sockets (λ _, {["a"; "b"; "c"]}) init in
  let data := JObj [("message", JStr "hi")] in
  ∃ s' new,
    exec (on_send_message "a" data) s = Ok s' ∧
    outbox s' = outbox s ++ new ∧
    received "a" new = [] ∧
    ∀ c, received c new =
           if decide (c ∈ sockets s ∧ c ≠ "a")
           then [receive_message "a" (sender_name (JsMap.get "a" (users s))) (JStr "hi") false (clock s)]
           else [].
Proof.
  intros s data.
  apply (broadcast_route "a" data JUndefined (JStr "hi") s); reflexivity.
Defined.

(** ** What the handlers leave alone *)

Lemma on_send_message_frame sid data s s' :
  exec (on_send_message sid data) s = Ok s' →
  users s' = users s ∧ sockets s' = sockets s ∧
  timers s' = timers s ∧ clock s' = clock s.
Proof.
  destruct (get_prop "to" data) as [to|e1] eqn:Hto;
    [destruct (get_prop "message" data) as [message|e2] eqn:Hmsg|].
  - rewrite (exec_on_send_message _ _ _ _ _ Hto Hmsg). by intros [= <-].
  - unfold exec, on_send_message, mbind, M_bind, lift. by rewrite Hto, Hmsg.
  - unfold exec, on_send_message, mbind, M_bind, lift. by rewrite Hto.
Qed.

Lemma take_timer_Permutation t ts ts' :
  take_timer t ts = Some ts' → ts ≡ₚ t :: ts'.
Proof.
  revert ts'. induction ts as [|t0 ts IH]; intros ts'; simpl; [done|].
  destruct (decide (t0 = t)) as [->|Hne]; [by intros [= ->]|].
  destruct (take_timer t ts) as [ts0|]; simpl; [|done].
  intros [= <-]. rewrite (IH ts0) by done. apply Permutation_swap.
Qed.

Lemma take_timer_pending t ts : t ∈ ts → is_Some (take_timer t ts).
Proof.
  induction ts as [|t0 ts IH]; [by intros ?%elem_of_nil|].
  simpl. destruct (decide (t0 = t)) as [->|Hne]; [eauto|].
  intros [?|Hin]%elem_of_cons; [congruence|].
  destruct (IH Hin) as [ts' ->]. simpl. eauto.
Qed.

(** Only the firing of a timer takes a timer off the pending list. *)
Lemma step_keeps_timers s a s' :
  step s a = Some (Ok s') →
  (∀ due sid, a ≠ Timeout due sid) →
  timers s `prefix_of` timers s'.
Proof.
  intros Hstep Hnt. destruct a as [sid|sid u|sid data|sid b|sid|due sid|d]; simpl in Hstep.
  - destruct (decide (sid ∈ sockets s)); [done|]. by injection Hstep as <-.
  - destruct (decide (sid ∈ sockets s)); [|done].
    rewrite exec_on_user_connected in Hstep.
    destruct (to_string u); [|done]. by injection Hstep as <-.
  - destruct (decide (sid ∈ sockets s)); [|done].
    injection Hstep as Hexec. apply on_send_message_frame in Hexec as (_ & _ & -> & _).
    done.
  - destruct (decide (sid ∈ sockets s)); [|done].
    rewrite exec_on_typing in Hstep.
    destruct (JsMap.get sid (users s)); by injection Hstep as <-.
  - destruct (decide (sid ∈ sockets s)); [|done].
    rewrite exec_on_disconnect in Hstep. simpl in Hstep.
    destruct (JsMap.get sid (users s)); injection Hstep as <-; simpl; [|done].
    by apply prefix_app_r.
  - by destruct (Hnt due sid).
  - by injection Hstep as <-.
Qed.

(** A record leaves the registry only when a timer for its id fires. *)
Lemma step_keeps_record sid s a s' :
  step s a = Some (Ok s') →
  (∀ due, a ≠ Timeout due sid) →
  is_Some (JsMap.get sid (users s)) →
  is_Some (JsMap.get sid (users s')).
Proof.
  intros Hstep Hnt Hrec.
  destruct a as [sid'|sid' u|sid' data|sid' b|sid'|due sid'|d]; simpl in Hstep.
  - destruct (decide (sid' ∈ sockets s)); [done|]. by injection Hstep as <-.
  - destruct (decide (sid' ∈ sockets s)); [|done].
    rewrite exec_on_user_connected in Hstep.
    destruct (to_string u); [|done]. injection Hstep as <-. simpl.
    destruct (decide (sid = sid')) as [->|Hne].
    + rewrite JsMapFacts.get_set_eq. eauto.
    + by rewrite JsMapFacts.get_set_ne.
  - destruct (decide (sid' ∈ sockets s)); [|done].
    injection Hstep as Hexec. apply on_send_message_frame in Hexec as (-> & _).
    done.
  - destruct (decide (sid' ∈ sockets s)); [|done].
    rewrite exec_on_typing in Hstep.
    destruct (JsMap.get sid' (users s)); by injection Hstep as <-.
  - destruct (decide (sid' ∈ sockets s)); [|done].
    rewrite exec_on_disconnect in Hstep. simpl in Hstep.
    destruct (JsMap.get sid' (users s)); injection Hstep as <-; simpl; [|done].
    destruct (decide (sid = sid')) as [->|Hne].
    + rewrite JsMapFacts.get_set_eq. eauto.
    + by rewrite JsMapFacts.get_set_ne.
  - destruct (take_timer (due, sid') (timers s)); [|done].
    destruct (decide (due ≤ clock s)%N); [|done].
    rewrite exec_grace_callback in Hstep. injection Hstep as <-. simpl.
    destruct (decide (sid' ∈ sockets s)); simpl; [done|].
    rewrite JsMapFacts.get_delete_ne; [done|].
    intros ->. by apply (Hnt due).
  - by injection Hstep as <-.
Qed.

Lemma run_keeps_record sid tr : ∀ s s',
  run s tr = Some (Ok s') →
  Forall (λ a, ∀ due, a ≠ Timeout due sid) tr →
  is_Some (JsMap.get sid (users s)) →
  is_Some (JsMap.get sid (users s')).
Proof.
  induction tr as [|a tr IH]; intros s s' Hrun Hall Hrec; simpl in Hrun.
  - by injection Hrun as <-.
  - apply Forall_cons in Hall as [Ha Hall].
    destruct (step s a) as [[s1|e]|] eqn:Hstep; [|done..].
    apply (IH s1 s'); [done..|]. by apply (step_keeps_record sid s a).
Qed.

(** The registry never holds an id twice. *)
Lemma step_keys_NoDup s a s' :
  step s a = Some (Ok s') →
  NoDup (JsMap.keys (users s)) → NoDup (JsMap.keys (users s')).
Proof.
  intros Hstep Hnd.
  destruct a as [sid|sid u|sid data|sid b|sid|due sid|d]; simpl in Hstep.
  - destruct (decide (sid ∈ sockets s)); [done|]. by injection Hstep as <-.
  - destruct (decide (sid ∈ sockets s)); [|done].
    rewrite exec_on_user_connected in Hstep.
    destruct (to_string u); [|done]. injection Hstep as <-.
    by apply JsMapFacts.keys_set_NoDup.
  - destruct (decide (sid ∈ sockets s)); [|done].
    injection Hstep as Hexec. apply on_send_message_frame in Hexec as (-> & _).
    done.
  - destruct (decide (sid ∈ sockets s)); [|done].
    rewrite exec_on_typing in Hstep.
    destruct (JsMap.get sid (users s)); by injection Hstep as <-.
  - destruct (decide (sid ∈ sockets s)); [|done].
    rewrite exec_on_disconnect in Hstep. simpl in Hstep.
    destruct (JsMap.get sid (users s)); injection Hstep as <-; simpl; [|done].
    by apply JsMapFacts.keys_set_NoDup.
  - destruct (take_timer (due, sid) (timers s)); [|done].
    destruct (decide (due ≤ clock s)%N); [|done].
    rewrite exec_grace_callback in Hstep. injection Hstep as <-. simpl.
    destruct (decide (sid ∈ sockets s)); simpl; [done|].
    by apply JsMapFacts.keys_delete_NoDup.
  - by injection Hstep as <-.
Qed.

Lemma run_keys_NoDup tr : ∀ s',
  run init tr = Some (Ok s') → NoDup (JsMap.keys (users s')).
Proof.
  assert (∀ s s', run s tr = Some (Ok s') →
            NoDup (JsMap.keys (users s)) → NoDup (JsMap.keys (users s'))) as Hgen.
  { induction tr as [|a tr IH]; intros s s' Hrun Hnd; simpl in Hrun.
    - by injection Hrun as <-.
    - destruct (step s a) as [[s1|e]|] eqn:Hstep; [|done..].
      apply (IH s1 s'); [done|]. by apply (step_keys_NoDup s a). }
  intros s' Hrun. apply (Hgen init s' Hrun). apply NoDup_nil_2.
Qed.

(** C7. A [send_message] from a socket that has no record in the registry
    is still carried out.  Without a target, every connected socket other
    than the sender's is written the packet once; with the id of another,
    connected socket as target, that socket is written the packet once and
    nobody else anything.  In both cases the packet names the sender
    ['Unknown'], and the connections written to are the same whatever the
    registry holds.  No handler throws on what the events are meant to
    carry: [typing], [disconnect] and the timer callback always run to
    their end, [user_connected] does whenever the name can be printed
    (every string can), and [send_message] whenever the event carries a
    payload (destructuring [undefined] or [null] throws). *)
Theorem send_completes_for_unknown_sender A data s :
  data ≠ JUndefined →
  data ≠ JNull →
  (∃ to message s' new,
     get_prop "to" data = Ok to ∧
     get_prop "message" data = Ok message ∧
     exec (on_send_message A data) s = Ok s' ∧
     outbox s' = outbox s ++ new ∧
     (JsMap.get A (users s) = None →
        (truthy to = false →
           ∀ c, received c new =
                  if decide (c ∈ sockets s ∧ c ≠ A)
                  then [receive_message A (JStr "Unknown") message false (clock s)]
                  else []) ∧
        (∀ B, to = JStr B → B ≠ "" → B ≠ A → B ∈ sockets s →
           received B new =
             [receive_message A (JStr "Unknown") message true (clock s)] ∧
           ∀ c, c ≠ B → received c new = []) ∧
        (∀ c p, (c, p) ∈ new →
           ∃ isPrivate,
             p = receive_message A (JStr "Unknown") message isPrivate (clock s))) ∧
     (∀ s2, sockets s2 = sockets s →
        ∃ s2' new2,
          exec (on_send_message A data) s2 = Ok s2' ∧
          outbox s2' = outbox s2 ++ new2 ∧
          new2.*1 = new.*1)) ∧
  (∀ name, completes (to_string name) →
           completes (exec (on_user_connected A name) s)) ∧
  (∀ isTyping, completes (exec (on_typing A isTyping) s)) ∧
  completes (exec (on_disconnect A) s) ∧
  completes (exec (grace_callback A) s).
Proof.
  intros Hu Hn.
  destruct (get_prop_defined "to" data Hu Hn) as [to Hto].
  destruct (get_prop_defined "message" data Hu Hn) as [message Hmsg].
  split; [|split_and!].
  - exists to, message. eexists _, _. split; [done|]. split; [done|].
    split; [by apply exec_on_send_message|]. cbn [outbox].
    split; [done|]. split.
    + intros Hnone. rewrite Hnone.
      change (sender_name None) with (JStr "Unknown"). split_and!.
      * intros Hfalsy c. rewrite Hfalsy. apply received_broadcast.
      * intros B -> HB Hne Hlive.
        rewrite truthy_id, room_targets_id, decide_True by done.
        cbn [fmap list_fmap]. rewrite received_singleton, decide_True by done.
        split; [done|]. intros c Hc.
        by rewrite received_singleton, decide_False.
      * intros c p (r & [= -> ->] & _)%list_elem_of_fmap. by eexists.
    + intros s2 Hlive. eexists _, _.
      split; [by apply exec_on_send_message|]. cbn [outbox]. split; [done|].
      rewrite Hlive, <- !list_fmap_compose. done.
  - intros name Hname. rewrite exec_on_user_connected_ok by done. by eexists.
  - intros isTyping. rewrite exec_on_typing.
    destruct (JsMap.get A (users s)); by eexists.
  - rewrite exec_on_disconnect. destruct (JsMap.get A (users s)); by eexists.
  - rewrite exec_grace_callback. by eexists.
Qed.

Lemma send_completes_for_unknown_sender_witness :
  let s := with_sockets (λ _, {["a"; "b"; "z"]}) init in
  let data := JObj [("message", JStr "hi")] in
  (∃ to message s' new,
     get_prop "to" data = Ok to ∧
     get_prop "message" data = Ok message ∧
     exec (on_send_message "z" data) s = Ok s' ∧
     outbox s' = outbox s ++ new ∧
     (JsMap.get "z" (users s) = None →
        (truthy to = false →
           ∀ c, received c new =
                  if decide (c ∈ sockets s ∧ c ≠ "z")
                  then [receive_message "z" (JStr "Unknown") message false (clock s)]
                  else []) ∧
        (∀ B, to = JStr B → B ≠ "" → B ≠ "z" → B ∈ sockets s →
           received B new =
             [receive_message "z" (JStr "Unknown") message true (clock s)] ∧
           ∀ c, c ≠ B → received c new = []) ∧
        (∀ c p, (c, p) ∈ new →
           ∃ isPrivate,
             p = receive_message "z" (JStr "Unknown") message isPrivate (clock s))) ∧
     (∀ s2, sockets s2 = sockets s →
        ∃ s2' new2,
          exec (on_send_message "z" data) s2 = Ok s2' ∧
          outbox s2' = outbox s2 ++ new2 ∧
          new2.*1 = new.*1)) ∧
  (∀ name, completes (to_string name) →
           completes (exec (on_user_connected "z" name) s)) ∧
  (∀ isTyping, completes (exec (on_typing "z" isTyping) s)) ∧
  completes (exec (on_disconnect "z") s) ∧
  completes (exec (grace_callback "z") s).
Proof.
  intros s data.
  apply (send_completes_for_unknown_sender "z" data s); discriminate.
Defined.

(** Where C7 stops: a [send_message] event without a payload throws. *)
Lemma send_message_without_payload_throws sid s :
  exec (on_send_message sid JUndefined) s = Throw "TypeError".
Proof. reflexivity. Qed.

(** ** Typing indicator *)

(** C8. The [typing] handler changes nothing but the outbox.  For a socket
    without a record it writes no packet at all; for a socket with a record
    it writes [{ userId, username, isTyping }] once to every connected
    socket other than the typing one, and to nobody else. *)
Theorem typing_relay sid isTyping s :
  ∃ s' new,
    exec (on_typing sid isTyping) s = Ok s' ∧
    outbox s' = outbox s ++ new ∧
    users s' = users s ∧ timers s' = timers s ∧
    sockets s' = sockets s ∧ clock s' = clock s ∧
    match JsMap.get sid (users s) with
    | None => new = []
    | Some u =>
        ∀ c, received c new =
               if decide (c ∈ sockets s ∧ c ≠ sid)
               then [user_typing sid (username u) isTyping]
               else []
    end.
Proof.
  rewrite exec_on_typing. destruct (JsMap.get sid (users s)) as [u|].
  - eexists _, _. split; [done|]. cbn. split_and!; try done.
    intros c. apply received_broadcast.
  - exists s, []. by rewrite app_nil_r.
Qed.

(** ** Leaving *)

(** C4. For a socket without a record the [disconnect] handler does
    nothing: the state it ends in is the state it started from, so no
    packet is written, the registry is untouched and no timer is pending
    that was not pending before.  The only trace of the disconnection is
    the transport's own: the socket is no longer connected. *)
Theorem disconnect_unjoined_noop sid s :
  JsMap.get sid (users s) = None →
  exec (on_disconnect sid) s = Ok s ∧
  (sid ∈ sockets s →
   step s (Disconnect sid) = Some (Ok (with_sockets (λ live, live ∖ {[sid]}) s))).
Proof.
  intros Hnone. split.
  - by rewrite exec_on_disconnect, Hnone.
  - intros Hin. simpl. rewrite decide_True by done.
    rewrite exec_on_disconnect. simpl. by rewrite Hnone.
Qed.

Lemma disconnect_unjoined_noop_witness :
  let s := with_sockets (λ _, {["a"; "b"]}) init in
  JsMap.get "a" (users s) = None ∧
  exec (on_disconnect "a") s = Ok s ∧
  ("a" ∈ sockets s →
   step s (Disconnect "a") = Some (Ok (with_sockets (λ live, live ∖ {["a"]}) s))).
Proof.
  intros s. split; [reflexivity|].
  apply (disconnect_unjoined_noop "a" s). reflexivity.
Defined.

(** C5. For a socket with a record the [disconnect] handler ends with the
    record's status set to ['offline'] and its username as it was; every
    other record, and the order of the registry, are as before, and one
    grace timer, due 60000 ms later, has been added.  The record then
    stays in the registry through whatever happens next, as long as no
    grace timer of that id fires. *)
Theorem disconnect_sets_offline sid u s :
  JsMap.get sid (users s) = Some u →
  ∃ s',
    exec (on_disconnect sid) s = Ok s' ∧
    JsMap.get sid (users s') = Some (User (username u) "offline") ∧
    (∀ k, k ≠ sid → JsMap.get k (users s') = JsMap.get k (users s)) ∧
    JsMap.keys (users s') = JsMap.keys (users s) ∧
    timers s' = timers s ++ [((clock s + 60000)%N, sid)] ∧
    ∀ tr s'',
      Forall (λ a, ∀ due, a ≠ Timeout due sid) tr →
      run s' tr = Some (Ok s'') →
      is_Some (JsMap.get sid (users s'')).
Proof.
  intros Hrec. eexists. rewrite exec_on_disconnect, Hrec.
  split; [done|]. cbn [users timers]. split_and!.
  - apply JsMapFacts.get_set_eq.
  - intros k Hk. by apply JsMapFacts.get_set_ne.
  - apply JsMapFacts.keys_set_present. by rewrite Hrec.
  - done.
  - intros tr s'' Hall Hrun. apply (run_keeps_record sid tr _ s'' Hrun Hall).
    cbn [users]. rewrite JsMapFacts.get_set_eq. by eexists.
Qed.

Lemma disconnect_sets_offline_witness :
  let s := {| users := [("a", User (JStr "alice") "online");
                        ("b", User (JStr "bob") "online")];
              sockets := {["b"]}; timers := []; outbox := []; clock := 5 |} in
  JsMap.get "a" (users s) = Some (User (JStr "alice") "online") ∧
  ∃ s',
    exec (on_disconnect "a") s = Ok s' ∧
    JsMap.get "a" (users s') = Some (User (JStr "alice") "offline") ∧
    (∀ k, k ≠ "a" → JsMap.get k (users s') = JsMap.get k (users s)) ∧
    JsMap.keys (users s') = JsMap.keys (users s) ∧
    timers s' = timers s ++ [((clock s + 60000)%N, "a")] ∧
    ∀ tr s'',
      Forall (λ a, ∀ due, a ≠ Timeout due "a") tr →
      run s' tr = Some (Ok s'') →
      is_Some (JsMap.get "a" (users s'')).
Proof.
  intros s. split; [reflexivity|].
  apply (disconnect_sets_offline "a" (User (JStr "alice") "online") s).
  reflexivity.
Defined.

(** ** The grace timer *)

Lemma step_Timeout due sid s :
  (due, sid) ∈ timers s →
  (due ≤ clock s)%N →
  ∃ ts,
    take_timer (due, sid) (timers s) = Some ts ∧
    step s (Timeout due sid) =
      Some (Ok (if decide (sid ∈ sockets s) then with_timers ts s
                else {| users := JsMap.delete sid (users s); sockets := sockets s;
                        timers := ts; outbox := outbox s; clock := clock s |})).
Proof.
  intros Hin Hdue. destruct (take_timer_pending _ _ Hin) as [ts Hts].
  exists ts. split; [done|]. simpl. rewrite Hts, decide_True by done.
  rewrite exec_grace_callback. simpl. by destruct (decide (sid ∈ sockets s)).
Qed.

(** C6. Take a pending grace timer, scheduled for id [sid].  Whatever
    happens other than this timer firing (a join or a disconnect of [sid]
    included) leaves it pending.  Once it is due it can fire, and firing
    takes this one timer off the pending list, leaves every other timer
    pending, and deletes the record of [sid] exactly when [sid] is not a
    connected socket in the state in which the timer fires; no other
    record is touched. *)
Theorem grace_timer_rechecks_liveness due sid s :
  (due, sid) ∈ timers s →
  (∀ a s1, step s a = Some (Ok s1) → a ≠ Timeout due sid →
           (due, sid) ∈ timers s1) ∧
  ((due ≤ clock s)%N →
   ∃ s',
     step s (Timeout due sid) = Some (Ok s') ∧
     timers s ≡ₚ (due, sid) :: timers s' ∧
     users s' = (if decide (sid ∈ sockets s) then users s
                 else JsMap.delete sid (users s)) ∧
     (is_Some (JsMap.get sid (users s)) →
      (JsMap.get sid (users s') = None ↔ sid ∉ sockets s)) ∧
     (∀ k, k ≠ sid → JsMap.get k (users s') = JsMap.get k (users s))).
Proof.
  intros Hin. split.
  - intros a s1 Hstep Hne.
    assert ((∃ d i, a = Timeout d i) ∨ (∀ d i, a ≠ Timeout d i))
      as [(d & i & ->)|Hother] by (destruct a; eauto; right; discriminate).
    + simpl in Hstep.
      destruct (take_timer (d, i) (timers s)) as [ts|] eqn:Hts; [|done].
      destruct (decide (d ≤ clock s)%N); [|done].
      rewrite exec_grace_callback in Hstep. injection Hstep as <-.
      apply take_timer_Permutation in Hts. rewrite Hts in Hin.
      apply elem_of_cons in Hin as [Heq|Hin]; [congruence|].
      by destruct (decide (i ∈ sockets s)).
    + apply (step_keeps_timers s a s1) in Hstep as [ts ->]; [|done].
      apply elem_of_app. by left.
  - intros Hdue. destruct (step_Timeout due sid s Hin Hdue) as (ts & Hts & Hstep).
    eexists. split; [exact Hstep|].
    apply take_timer_Permutation in Hts.
    destruct (decide (sid ∈ sockets s)) as [Hlive|Hdead]; cbn.
    + split_and!; try done. intros [v Hv]. rewrite Hv. split; [done|tauto].
    + split_and!; try done.
      * intros _. split; [done|]. intros _. apply JsMapFacts.get_delete_eq.
      * intros k Hk. by apply JsMapFacts.get_delete_ne.
Qed.

Lemma grace_timer_rechecks_liveness_witness :
  let s := {| users := [("a", User (JStr "alice") "offline");
                        ("b", User (JStr "bob") "online")];
              sockets := {["b"]};
              timers := [(60000%N, "a"); (61000%N, "a")];
              outbox := []; clock := 60500 |} in
  (60000%N, "a") ∈ timers s ∧
  (∀ a s1, step s a = Some (Ok s1) → a ≠ Timeout 60000 "a" →
           (60000%N, "a") ∈ timers s1) ∧
  ((60000 ≤ clock s)%N →
   ∃ s',
     step s (Timeout 60000 "a") = Some (Ok s') ∧
     timers s ≡ₚ (60000%N, "a") :: timers s' ∧
     users s' = (if decide ("a" ∈ sockets s) then users s
                 else JsMap.delete "a" (users s)) ∧
     (is_Some (JsMap.get "a" (users s)) →
      (JsMap.get "a" (users s') = None ↔ "a" ∉ sockets s)) ∧
     (∀ k, k ≠ "a" → JsMap.get k (users s') = JsMap.get k (users s))).
Proof.
  intros s. split; [left|].
  apply (grace_timer_rechecks_liveness 60000 "a" s). left.
Defined.

(** Three timers for one id: the first finds the socket connected again and
    keeps the record, the second finds it gone and deletes the record, the
    third is still pending at the end. *)
Example three_timers_one_id :
  ∃ s',
    run init [Connection "a"; UserConnected "a" (JStr "alice"); Disconnect "a";
              Tick 1000; Connection "a"; Disconnect "a";
              Tick 59000; Connection "a"; Timeout 60000 "a"] = Some (Ok s') ∧
    users s' = [("a", User (JStr "alice") "offline")] ∧
    timers s' = [(61000%N, "a")] ∧
    ∃ s'',
      run s' [Disconnect "a"; Tick 1000; Timeout 61000 "a"] = Some (Ok s'') ∧
      users s'' = [] ∧
      timers s'' = [(120000%N, "a")].
Proof.
  eexists. split; [vm_compute; reflexivity|]. split; [reflexivity|].
  split; [reflexivity|].
  eexists. split; [vm_compute; reflexivity|]. split; reflexivity.
Qed.

(** ** The users list *)

(** The users list goes to the joining socket and to nobody else. *)
Lemma users_list_only_to_joiner sid name s c :
  c ≠ sid →
  filter (λ p, is_users_list p)
    (received c
       (((λ r, (r, user_status_changed sid name "online" (clock s)))
           <$> elements (sockets s)) ++
        [(sid, users_list
                 (roster_entry <$>
                    JsMap.entries (JsMap.set sid (User name "online") (users s))))]))
  = [].
Proof.
  intros Hne. rewrite received_app, received_io_emit, received_singleton.
  rewrite (decide_False (P:=_ = c)) by congruence.
    by destruct (decide (c ∈ sockets s)).
Qed.

(** C9. The entries of the registry come in insertion order: a new key goes
    to the end.  On an empty registry, with [A] and [B] connected and names
    that can be printed (every string can): when [A]
    joins, [A] is sent the notification and a users list holding just [A];
    when [B] joins next, [B] is sent the notification and a users list
    holding [A] then [B], while [A] is sent the notification about [B] and
    nothing else.  Neither users list is sent to any other connection. *)
Theorem roster_in_insertion_order A B alice bob s :
  A ≠ B →
  users s = JsMap.empty →
  A ∈ sockets s →
  B ∈ sockets s →
  completes (to_string alice) →
  completes (to_string bob) →
  (∀ k v (m : JsMap.t user),
     JsMap.get k m = None → JsMap.entries (JsMap.set k v m) = JsMap.entries m ++ [(k, v)]) ∧
  ∃ s1 new1 s2 new2,
    exec (on_user_connected A alice) s = Ok s1 ∧
    outbox s1 = outbox s ++ new1 ∧
    exec (on_user_connected B bob) s1 = Ok s2 ∧
    outbox s2 = outbox s1 ++ new2 ∧
    JsMap.entries (users s2) = [(A, User alice "online"); (B, User bob "online")] ∧
    received A new1 =
      [user_status_changed A alice "online" (clock s);
       users_list [Entry A alice "online"]] ∧
    received B new2 =
      [user_status_changed B bob "online" (clock s);
       users_list [Entry A alice "online"; Entry B bob "online"]] ∧
    received A new2 = [user_status_changed B bob "online" (clock s)] ∧
    (∀ c, c ≠ A → filter (λ p, is_users_list p) (received c new1) = []) ∧
    (∀ c, c ≠ B → filter (λ p, is_users_list p) (received c new2) = []).
Proof.
  intros Hne Hempty HA HB Halice Hbob. split; [apply JsMapFacts.set_absent|].
  eexists _, _, _, _.
  split; [by apply exec_on_user_connected_ok|]. cbn [outbox].
  split; [by rewrite <- app_assoc|].
  split; [by apply exec_on_user_connected_ok|]. cbn [outbox users sockets clock].
  split; [by rewrite <- (app_assoc (_ ++ _))|].
  rewrite Hempty. cbn [JsMap.empty JsMap.set JsMap.entries].
  rewrite decide_False by done. cbn [fmap list_fmap roster_entry fst snd username status].
  split; [done|]. split_and!.
  - rewrite received_app, received_io_emit, received_singleton.
    by rewrite !decide_True.
  - rewrite received_app, received_io_emit, received_singleton.
    by rewrite !decide_True.
  - rewrite received_app, received_io_emit, received_singleton.
    by rewrite decide_True, decide_False.
  - intros c Hc. rewrite received_app, received_io_emit, received_singleton.
    rewrite (decide_False (P:=_ = c)) by congruence.
    by destruct (decide (c ∈ sockets s)).
  - intros c Hc. rewrite received_app, received_io_emit, received_singleton.
    rewrite (decide_False (P:=_ = c)) by congruence.
    by destruct (decide (c ∈ sockets s)).
Qed.

Lemma roster_in_insertion_order_witness :
  let s := with_sockets (λ _, {["a"; "b"]}) init in
  ("a" ≠ "b" ∧ users s = JsMap.empty ∧ "a" ∈ sockets s ∧ "b" ∈ sockets s ∧
   completes (to_string (JStr "alice")) ∧ completes (to_string (JStr "bob"))) ∧
  ∃ s1 new1 s2 new2,
    exec (on_user_connected "a" (JStr "alice")) s = Ok s1 ∧
    outbox s1 = outbox s ++ new1 ∧
    exec (on_user_connected "b" (JStr "bob")) s1 = Ok s2 ∧
    outbox s2 = outbox s1 ++ new2 ∧
    JsMap.entries (users s2) =
      [("a", User (JStr "alice") "online"); ("b", User (JStr "bob") "online")] ∧
    received "a" new1 =
      [user_status_changed "a" (JStr "alice") "online" (clock s);
       users_list [Entry "a" (JStr "alice") "online"]] ∧
    received "b" new2 =
      [user_status_changed "b" (JStr "bob") "online" (clock s);
       users_list [Entry "a" (JStr "alice") "online"; Entry "b" (JStr "bob") "online"]] ∧
    received "a" new2 = [user_status_changed "b" (JStr "bob") "online" (clock s)] ∧
    (∀ c, c ≠ "a" → filter (λ p, is_users_list p) (received c new1) = []) ∧
    (∀ c, c ≠ "b" → filter (λ p, is_users_list p) (received c new2) = []).
Proof.
  intros s.
  assert ("a" ≠ "b") as Hne by discriminate.
  assert ("a" ∈ sockets s) as Ha by (apply (bool_decide_unpack _); vm_compute; exact I).
  assert ("b" ∈ sockets s) as Hb by (apply (bool_decide_unpack _); vm_compute; exact I).
  assert (completes (to_string (JStr "alice"))) as Halice
    by (eexists; reflexivity).
  assert (completes (to_string (JStr "bob"))) as Hbob
    by (eexists; reflexivity).
  split; [done|].
  apply (roster_in_insertion_order "a" "b" (JStr "alice") (JStr "bob") s
           Hne eq_refl Ha Hb Halice Hbob).
Defined.

(** C10. When a socket that already has a record joins again, under a
    name that can be printed (every string can), the record
    is replaced by [{ username: name', status: 'online' }] at the position
    the id already had: the order of ids in the registry, and so in the
    users list sent back, is the one from before, and the other records are
    untouched.  The status update of the [disconnect] handler keeps the
    order as well. *)
Theorem rejoin_keeps_position sid name' u s :
  JsMap.get sid (users s) = Some u →
  completes (to_string name') →
  ∃ s' new,
    exec (on_user_connected sid name') s = Ok s' ∧
    outbox s' = outbox s ++ new ∧
    JsMap.get sid (users s') = Some (User name' "online") ∧
    JsMap.keys (users s') = JsMap.keys (users s) ∧
    (∀ k, k ≠ sid → JsMap.get k (users s') = JsMap.get k (users s)) ∧
    (∃ roster, (sid, users_list roster) ∈ new ∧ id <$> roster = JsMap.keys (users s)) ∧
    ∃ s'', exec (on_disconnect sid) s = Ok s'' ∧
           JsMap.keys (users s'') = JsMap.keys (users s).
Proof.
  intros Hrec Hname.
  assert (∀ v, JsMap.keys (JsMap.set sid v (users s)) = JsMap.keys (users s)) as Hkeys.
  { intros v. apply JsMapFacts.keys_set_present. by rewrite Hrec. }
  eexists _, _. split; [by apply exec_on_user_connected_ok|]. cbn [outbox users].
  split; [by rewrite <- app_assoc|]. split_and!.
  - apply JsMapFacts.get_set_eq.
  - apply Hkeys.
  - intros k Hk. by apply JsMapFacts.get_set_ne.
  - eexists. split; [apply elem_of_app; right; left|].
    rewrite <- list_fmap_compose. apply Hkeys.
  - rewrite exec_on_disconnect, Hrec. eexists. split; [done|]. apply Hkeys.
Qed.

Lemma rejoin_keeps_position_witness :
  let s := {| users := [("a", User (JStr "alice") "offline");
                        ("b", User (JStr "bob") "online")];
              sockets := {["a"; "b"]}; timers := [(60000%N, "a")];
              outbox := []; clock := 100 |} in
  JsMap.get "a" (users s) = Some (User (JStr "alice") "offline") ∧
  completes (to_string (JStr "alicia")) ∧
  ∃ s' new,
    exec (on_user_connected "a" (JStr "alicia")) s = Ok s' ∧
    outbox s' = outbox s ++ new ∧
    JsMap.get "a" (users s') = Some (User (JStr "alicia") "online") ∧
    JsMap.keys (users s') = JsMap.keys (users s) ∧
    (∀ k, k ≠ "a" → JsMap.get k (users s') = JsMap.get k (users s)) ∧
    (∃ roster, ("a", users_list roster) ∈ new ∧ id <$> roster = JsMap.keys (users s)) ∧
    ∃ s'', exec (on_disconnect "a") s = Ok s'' ∧
           JsMap.keys (users s'') = JsMap.keys (users s).
Proof.
  intros s.
  assert (completes (to_string (JStr "alicia"))) as Hname
    by (eexists; reflexivity).
  split; [reflexivity|]. split; [exact Hname|].
  apply (rejoin_keeps_position "a" (JStr "alicia") (User (JStr "alice") "offline") s);
    [reflexivity | exact Hname].
Defined.

(** ** Runs of the server *)

(** What a transition that ended normally has done. *)
Lemma step_inv s a s' :
  step s a = Some (Ok s') →
  match a with
  | Connection sid =>
      (sid ∉ sockets s) ∧ s' = with_sockets (λ live, live ∪ {[sid]}) s
  | UserConnected sid name =>
      sid ∈ sockets s ∧ exec (on_user_connected sid name) s = Ok s'
  | SendMessage sid data =>
      sid ∈ sockets s ∧ exec (on_send_message sid data) s = Ok s'
  | Typing sid b =>
      sid ∈ sockets s ∧ exec (on_typing sid b) s = Ok s'
  | Disconnect sid =>
      sid ∈ sockets s ∧
      exec (on_disconnect sid) (with_sockets (λ live, live ∖ {[sid]}) s) = Ok s'
  | Timeout due sid =>
      ∃ ts, take_timer (due, sid) (timers s) = Some ts ∧ (due ≤ clock s)%N ∧
            exec (grace_callback sid) (with_timers ts s) = Ok s'
  | Tick d => s' = with_clock (clock s + d)%N s
  end.
Proof.
  destruct a as [sid|sid u|sid data|sid b|sid|due sid|d]; simpl;
    try (destruct (decide (sid ∈ sockets s)); [|done];
         intros H; split; [done|congruence]).
  - destruct (decide (sid ∈ sockets s)); [done|]. by intros [= <-].
  - destruct (take_timer (due, sid) (timers s)) as [ts|]; [|done].
    destruct (decide (due ≤ clock s)%N); [|done]. intros H. exists ts.
    split_and!; [done..|congruence].
  - by intros [= <-].
Qed.

Lemma run_cons_inv s a tr s' :
  run s (a :: tr) = Some (Ok s') →
  ∃ s1, step s a = Some (Ok s1) ∧ run s1 tr = Some (Ok s').
Proof.
  simpl. destruct (step s a) as [[s1|e]|]; [|done..]. intros H. by exists s1.
Qed.

(** A property that holds at the start and that every transition keeps holds
    at the end of every run. *)
Lemma run_invariant (P : state → Prop) :
  (∀ s a s', step s a = Some (Ok s') → P s → P s') →
  ∀ tr s s', run s tr = Some (Ok s') → P s → P s'.
Proof.
  intros Hstep. induction tr as [|a tr IH]; intros s s' Hrun HP.
  - simpl in Hrun. by injection Hrun as <-.
  - apply run_cons_inv in Hrun as (s1 & Hs1 & Hrun). eauto.
Qed.

Lemma get_delete_Some {V} k k' (v : V) m :
  JsMap.get k (JsMap.delete k' m) = Some v → k ≠ k' ∧ JsMap.get k m = Some v.
Proof.
  destruct (decide (k = k')) as [->|Hne].
  - by rewrite JsMapFacts.get_delete_eq.
  - by rewrite JsMapFacts.get_delete_ne.
Qed.

Lemma get_set_Some {V} k k' (v v' : V) m :
  JsMap.get k (JsMap.set k' v' m) = Some v →
  (k = k' ∧ v = v') ∨ (k ≠ k' ∧ JsMap.get k m = Some v).
Proof.
  destruct (decide (k = k')) as [->|Hne].
  - rewrite JsMapFacts.get_set_eq. intros [= ->]. by left.
  - rewrite JsMapFacts.get_set_ne by done. by right.
Qed.

Lemma step_presence_consistent s a s' :
  step s a = Some (Ok s') → presence_consistent s → presence_consistent s'.
Proof.
  intros Hstep (Hst & Hoff & Hdue). apply step_inv in Hstep.
  destruct a as [sid|sid name|sid data|sid b|sid|due sid|d].
  - destruct Hstep as [Hnew ->]. split_and!; cbn; [done| |done].
    intros k u Hk Hnin. apply (Hoff k u Hk).
    intros Hin. apply Hnin, elem_of_union. by left.
  - destruct Hstep as [Hlive Hexec]. rewrite exec_on_user_connected in Hexec.
    destruct (to_string name); [|done]. injection Hexec as <-. split_and!; cbn; [| |done].
    + intros k u [[-> ->]|[_ Hk]]%get_set_Some; [by left|eauto].
    + intros k u [[-> ->]|[_ Hk]]%get_set_Some Hnin; [done|eauto].
  - destruct Hstep as [_ Hexec].
    apply on_send_message_frame in Hexec as (Hu & Hs & Ht & Hc).
    unfold presence_consistent. by rewrite Hu, Hs, Ht, Hc.
  - destruct Hstep as [_ Hexec]. rewrite exec_on_typing in Hexec.
    destruct (JsMap.get sid (users s)); by injection Hexec as <-.
  - destruct Hstep as [Hlive Hexec]. rewrite exec_on_disconnect in Hexec.
    cbn in Hexec. destruct (JsMap.get sid (users s)) as [u0|] eqn:Hrec;
      injection Hexec as <-; split_and!; cbn.
    + intros k u [[-> ->]|[_ Hk]]%get_set_Some; [by right|eauto].
    + intros k u [[-> ->]|[Hne Hk]]%get_set_Some Hnin.
      * split; [done|]. eexists. apply elem_of_app. right. left.
      * destruct (Hoff k u Hk) as [? [d Hd]].
        { intros Hin. apply Hnin, elem_of_difference. split; [done|].
          by intros ?%elem_of_singleton. }
        split; [done|]. exists d. apply elem_of_app. by left.
    + intros d k [Hin|Hin%list_elem_of_singleton]%elem_of_app; [eauto|].
      injection Hin as -> ->. lia.
    + done.
    + intros k u Hk Hnin. apply (Hoff k u Hk).
      intros Hin. apply Hnin. apply elem_of_difference. split; [done|].
      intros ->%elem_of_singleton. congruence.
    + done.
  - destruct Hstep as (ts & Hts & _ & Hexec).
    apply take_timer_Permutation in Hts.
    rewrite exec_grace_callback in Hexec. injection Hexec as <-. cbn.
    assert (∀ d k, (d, k) ∈ ts → (d, k) ∈ timers s) as Hsub.
    { intros d k Hin. rewrite Hts. by right. }
    destruct (decide (sid ∈ sockets s)) as [Hlive|Hdead]; split_and!; cbn.
    + done.
    + intros k u Hk Hnin. destruct (Hoff k u Hk Hnin) as [? [d Hd]].
      split; [done|]. exists d. rewrite Hts in Hd.
      apply elem_of_cons in Hd as [[= _ ->]|Hd]; done.
    + eauto.
    + intros k u [_ Hk]%get_delete_Some. eauto.
    + intros k u [Hne Hk]%get_delete_Some Hnin.
      destruct (Hoff k u Hk Hnin) as [? [d Hd]].
      split; [done|]. exists d. rewrite Hts in Hd.
      apply elem_of_cons in Hd as [[= _ ->]|Hd]; done.
    + eauto.
  - subst s'. split_and!; cbn; [done..|].
    intros due k Hin. specialize (Hdue due k Hin). lia.
Qed.

Lemma init_presence_consistent : presence_consistent init.
Proof.
  split_and!; cbn; [done..|]. by intros due sid ?%elem_of_nil.
Qed.

(** ** Further properties of the handlers *)

(** X1. The [send_message] handler throws exactly when the event carries no
    payload ([undefined] or [null]): the destructuring of [data] raises a
    [TypeError] before anything is written.  With any other payload it runs
    to its end. *)
Theorem send_message_throws_iff sid data s :
  (exec (on_send_message sid data) s = Throw "TypeError"
   ↔ data = JUndefined ∨ data = JNull) ∧
  (completes (exec (on_send_message sid data) s)
   ↔ data ≠ JUndefined ∧ data ≠ JNull).
Proof.
  assert (data ≠ JUndefined → data ≠ JNull →
          completes (exec (on_send_message sid data) s)) as Hok.
  { intros Hu Hn.
    destruct (get_prop_defined "to" data Hu Hn) as [to Hto].
    destruct (get_prop_defined "message" data Hu Hn) as [message Hmsg].
    rewrite (exec_on_send_message _ _ _ _ _ Hto Hmsg). by eexists. }
  split; split.
  - intros Hthrow.
    destruct data; auto; (destruct Hok as [s' Hs']; [done..|congruence]).
  - by intros [->| ->].
  - intros [s' Hs']. split; by intros ->.
  - intros [Hu Hn]. by apply Hok.
Qed.

(** X2. The packet a [send_message] with an object payload writes: [from]
    is the sender's socket id; [username] is the stored name if the sender
    has a record with a truthy name and ['Unknown'] otherwise (so also for
    a sender who joined with an empty name); [message] is the payload's
    [message] property, [undefined] if it has none; [isPrivate] is the
    truthiness of the payload's [to]; [timestamp] is the time of handling. *)
Theorem message_packet_fields sid fields s :
  ∃ s' new,
    exec (on_send_message sid (JObj fields)) s = Ok s' ∧
    outbox s' = outbox s ++ new ∧
    ∀ c p, (c, p) ∈ new →
      p = receive_message sid
            (match JsMap.get sid (users s) with
             | Some u => if truthy (username u) then username u else JStr "Unknown"
             | None => JStr "Unknown"
             end)
            (default JUndefined (assoc "message" fields))
            (truthy (default JUndefined (assoc "to" fields)))
            (clock s).
Proof.
  eexists _, _. split; [by apply exec_on_send_message|]. cbn [outbox].
  split; [done|]. intros c p (r & [= -> ->] & _)%list_elem_of_fmap.
  f_equal. unfold sender_name, js_or.
  by destruct (JsMap.get sid (users s)).
Qed.

(** X3. A payload that is not an object (a string, a number, a boolean, an
    array) has neither a [to] nor a [message]: the handler treats it as a
    message without target and writes a packet whose [message] is
    [undefined], with [isPrivate: false], once to every connected socket
    other than the sender's. *)
Theorem non_object_payload_is_broadcast sid data s :
  data ≠ JUndefined →
  data ≠ JNull →
  (∀ fields, data ≠ JObj fields) →
  ∃ s' new,
    exec (on_send_message sid data) s = Ok s' ∧
    outbox s' = outbox s ++ new ∧
    ∀ c, received c new =
           if decide (c ∈ sockets s ∧ c ≠ sid)
           then [receive_message sid (sender_name (JsMap.get sid (users s)))
                   JUndefined false (clock s)]
           else [].
Proof.
  intros Hu Hn Hobj.
  assert (∀ k, get_prop k data = Ok JUndefined) as Hprop.
  { intros k. destruct data; try done. by destruct (Hobj fields). }
  eexists _, _. split; [by apply exec_on_send_message|]. cbn [outbox].
  split; [done|]. intros c. apply received_broadcast.
Qed.

Lemma non_object_payload_is_broadcast_witness :
  let s := with_sockets (λ _, {["a"; "b"]}) init in
  ∃ s' new,
    exec (on_send_message "a" (JStr "hello")) s = Ok s' ∧
    outbox s' = outbox s ++ new ∧
    ∀ c, received c new =
           if decide (c ∈ sockets s ∧ c ≠ "a")
           then [receive_message "a" (sender_name (JsMap.get "a" (users s)))
                   JUndefined false (clock s)]
           else [].
Proof.
  intros s.
  apply (non_object_payload_is_broadcast "a" (JStr "hello") s); discriminate.
Defined.

Lemma set_set {V} k (v : V) m :
  JsMap.set k v (JsMap.set k v m) = JsMap.set k v m.
Proof.
  induction m as [|[k' v'] m IH]; simpl.
  - by rewrite decide_True.
  - destruct (decide (k' = k)) as [->|Hne]; simpl.
    + by rewrite decide_True.
    + rewrite decide_False by done. by rewrite IH.
Qed.

(** X4. Joining twice under the same name, a name that can be printed
    (every string can): the second [user_connected]
    leaves the registry exactly as the first one left it and schedules
    nothing, but it is announced again: every connected socket is sent the
    notification a second time, and the joining socket the users list. *)
Theorem join_twice_same_name sid name s :
  completes (to_string name) →
  ∃ s1 s2 new2,
    exec (on_user_connected sid name) s = Ok s1 ∧
    exec (on_user_connected sid name) s1 = Ok s2 ∧
    users s2 = users s1 ∧
    timers s2 = timers s ∧
    outbox s2 = outbox s1 ++ new2 ∧
    ∀ c, c ∈ sockets s →
      received c new2 =
        user_status_changed sid name "online" (clock s) ::
        (if decide (c = sid)
         then [users_list (roster_entry <$> JsMap.entries (users s1))]
         else []).
Proof.
  intros Hname.
  eexists _, _, _. split; [by apply exec_on_user_connected_ok|].
  split; [by apply exec_on_user_connected_ok|].
  cbn [users timers outbox sockets clock].
  rewrite set_set. split_and!; [done|done|by rewrite <- (app_assoc (_ ++ _))|].
  intros c Hc. rewrite received_app, received_io_emit, received_singleton.
  rewrite decide_True by done. cbn [app].
  destruct (decide (c = sid)) as [->|Hne].
  - by rewrite decide_True.
  - by rewrite decide_False.
Qed.

Lemma join_twice_same_name_witness :
  let s := with_sockets (λ _, {["a"; "b"]}) init in
  completes (to_string (JStr "alice")) ∧
  ∃ s1 s2 new2,
    exec (on_user_connected "a" (JStr "alice")) s = Ok s1 ∧
    exec (on_user_connected "a" (JStr "alice")) s1 = Ok s2 ∧
    users s2 = users s1 ∧
    timers s2 = timers s ∧
    outbox s2 = outbox s1 ++ new2 ∧
    ∀ c, c ∈ sockets s →
      received c new2 =
        user_status_changed "a" (JStr "alice") "online" (clock s) ::
        (if decide (c = "a")
         then [users_list (roster_entry <$> JsMap.entries (users s1))]
         else []).
Proof.
  intros s.
  assert (completes (to_string (JStr "alice"))) as Hname
    by (eexists; reflexivity).
  split; [exact Hname|].
  apply (join_twice_same_name "a" (JStr "alice") s Hname).
Defined.

(** X14. A message addressed to the sender's own id is written to nobody,
    the sender included: [socket.to] always leaves the emitting socket
    out, so the handler ends in the state it started from, whether or not
    the sender is connected or has a record. *)
Theorem directed_route_to_self A data message s :
  get_prop "to" data = Ok (JStr A) →
  get_prop "message" data = Ok message →
  A ≠ "" →
  exec (on_send_message A data) s = Ok s.
Proof.
  intros Hto Hmsg HA. rewrite (exec_on_send_message _ _ _ _ _ Hto Hmsg).
  rewrite truthy_id, room_targets_self by done. cbn [fmap list_fmap].
  rewrite app_nil_r. by destruct s.
Qed.

Lemma directed_route_to_self_witness :
  let s := {| users := [("a", User (JStr "alice") "online")];
              sockets := {["a"; "b"]}; timers := []; outbox := [];
              clock := 3 |} in
  let data := JObj [("to", JStr "a"); ("message", JStr "hi")] in
  exec (on_send_message "a" data) s = Ok s.
Proof.
  intros s data.
  apply (directed_route_to_self "a" data (JStr "hi") s);
    [reflexivity | reflexivity | discriminate].
Defined.

(** X15. The [user_connected] handler throws exactly when the name cannot
    be printed by its log line.  It never throws for [undefined], [null],
    a boolean, a number or a string; for an object it throws a [TypeError]
    exactly when the object has an own property called [toString]. *)
Theorem user_connected_throws_iff sid name s :
  (completes (exec (on_user_connected sid name) s) ↔ completes (to_string name)) ∧
  (exec (on_user_connected sid name) s = Throw "TypeError"
   ↔ to_string name = Throw "TypeError") ∧
  (∀ fields, name = JObj fields →
     (exec (on_user_connected sid name) s = Throw "TypeError"
      ↔ is_Some (assoc "toString" fields))) ∧
  ((∀ items, name ≠ JArr items) → (∀ fields, name ≠ JObj fields) →
   completes (exec (on_user_connected sid name) s)).
Proof.
  rewrite exec_on_user_connected. split_and!.
  - destruct (to_string name) as [str|e]; split; intros [x Hx];
      first [discriminate | by eexists].
  - destruct (to_string name) as [str|e]; split; intros H;
      first [discriminate | congruence].
  - intros fields ->. cbn [to_string].
    destruct (assoc "toString" fields) as [v|]; split; intros H;
      try done; try (by eexists); by destruct H.
  - intros Harr Hobj.
    destruct name; cbn [to_string]; try by eexists.
    + by destruct (Harr items).
    + by destruct (Hobj fields).
Qed.

Example to_string_of_array :
  to_string (JArr [JStr "al"; JNum 7; JNull; JArr [JNum (-2); JBool true]; JObj []])
  = Ok "al,7,,-2,true,[object Object]".
Proof. vm_compute. reflexivity. Qed.

Example join_with_unprintable_name_throws :
  run init [Connection "a"; UserConnected "a" (JObj [("toString", JNum 1)]);
            Connection "b"]
  = Some (Throw "TypeError").
Proof. vm_compute. reflexivity. Qed.

(** ** Further properties of the server's runs *)

Lemma step_Disconnect_joined A u s :
  A ∈ sockets s →
  JsMap.get A (users s) = Some u →
  step s (Disconnect A) =
  Some (Ok {| users := JsMap.set A (User (username u) "offline") (users s);
              sockets := sockets s ∖ {[A]};
              timers := timers s ++ [((clock s + 60000)%N, A)];
              outbox :=
                outbox s ++
                  ((λ r, (r, user_status_changed A (username u) "offline" (clock s)))
                     <$> elements (sockets s ∖ {[A]}));
              clock := clock s |}).
Proof.
  intros Hlive Hrec. simpl. rewrite decide_True by done.
  rewrite exec_on_disconnect. cbn. by rewrite Hrec.
Qed.

Lemma run_cons s a s1 tr :
  step s a = Some (Ok s1) → run s (a :: tr) = run s1 tr.
Proof. intros H. simpl. by rewrite H. Qed.

(** X5. When the connection of a socket with a record closes, every socket
    that is still connected is sent the ['offline'] notification exactly
    once, whether it has joined or not; the closing socket itself, already
    taken out of the connected set, is sent nothing. *)
Theorem disconnect_notifies_others A u s :
  A ∈ sockets s →
  JsMap.get A (users s) = Some u →
  ∃ s' new,
    step s (Disconnect A) = Some (Ok s') ∧
    outbox s' = outbox s ++ new ∧
    sockets s' = sockets s ∖ {[A]} ∧
    received A new = [] ∧
    ∀ c, received c new =
           if decide (c ∈ sockets s ∧ c ≠ A)
           then [user_status_changed A (username u) "offline" (clock s)]
           else [].
Proof.
  intros Hlive Hrec. eexists _, _.
  split; [by apply step_Disconnect_joined|]. cbn.
  assert (∀ c p,
    received c ((λ r, (r, p)) <$> elements (sockets s ∖ {[A]}))
    = if decide (c ∈ sockets s ∧ c ≠ A) then [p] else []) as Hrcv.
  { intros c p. rewrite received_io_emit.
    destruct (decide (c ∈ sockets s ∧ c ≠ A)) as [[Hc Hne]|Hn].
    - rewrite decide_True; [done|]. apply elem_of_difference. split; [done|].
      by intros ?%elem_of_singleton.
    - rewrite decide_False; [done|]. intros [Hc Hne]%elem_of_difference.
      apply Hn. split; [done|]. intros ->. apply Hne. by apply elem_of_singleton. }
  split_and!; [done..| |done].
  rewrite Hrcv. rewrite decide_False; [done|]. by intros [_ ?].
Qed.

Lemma disconnect_notifies_others_witness :
  let s := {| users := [("a", User (JStr "alice") "online")];
              sockets := {["a"; "b"; "c"]}; timers := []; outbox := [];
              clock := 7 |} in
  ∃ s' new,
    step s (Disconnect "a") = Some (Ok s') ∧
    outbox s' = outbox s ++ new ∧
    sockets s' = sockets s ∖ {["a"]} ∧
    received "a" new = [] ∧
    ∀ c, received c new =
           if decide (c ∈ sockets s ∧ c ≠ "a")
           then [user_status_changed "a" (JStr "alice") "offline" (clock s)]
           else [].
Proof.
  intros s.
  apply (disconnect_notifies_others "a" (User (JStr "alice") "online") s);
    [apply (bool_decide_unpack _); vm_compute; exact I | reflexivity].
Defined.

(** X6. The grace period, with no reconnection: after a socket with a
    record disconnects, the timer it leaves behind cannot fire before
    60000 ms have passed; once they have, it fires, finds the id not
    connected and deletes the record, leaving the other records alone. *)
Theorem grace_period_purges A u s :
  A ∈ sockets s →
  JsMap.get A (users s) = Some u →
  let due := (clock s + 60000)%N in
  (∀ d, (d < 60000)%N →
        run s [Disconnect A; Tick d; Timeout due A] = None) ∧
  ∃ s',
    run s [Disconnect A; Tick 60000; Timeout due A] = Some (Ok s') ∧
    JsMap.get A (users s') = None ∧
    (∀ k, k ≠ A → JsMap.get k (users s') = JsMap.get k (users s)).
Proof.
  intros Hlive Hrec due. split.
  - intros d Hd. cbn [run].
    rewrite (step_Disconnect_joined A u s Hlive Hrec). cbn.
    destruct (take_timer _ _); [|done]. by rewrite decide_False by lia.
  - rewrite (run_cons _ _ _ _ (step_Disconnect_joined A u s Hlive Hrec)).
    erewrite run_cons by reflexivity.
    match goal with |- context [run ?s2 [Timeout due A]] =>
      destruct (step_Timeout due A s2) as (ts & _ & Hfire)
    end.
    { cbn. apply elem_of_app. right. left. }
    { cbn. lia. }
    rewrite (run_cons _ _ _ _ Hfire). cbn [run sockets with_clock].
    rewrite decide_False
      by (intros [_ Hn]%elem_of_difference; apply Hn; by apply elem_of_singleton).
    eexists. split; [done|]. cbn [users with_clock]. split.
    + apply JsMapFacts.get_delete_eq.
    + intros k Hk.
      by rewrite JsMapFacts.get_delete_ne, JsMapFacts.get_set_ne.
Qed.

Lemma grace_period_purges_witness :
  let s := {| users := [("a", User (JStr "alice") "online");
                        ("b", User (JStr "bob") "online")];
              sockets := {["a"; "b"]}; timers := []; outbox := [];
              clock := 1000 |} in
  let due := (clock s + 60000)%N in
  (∀ d, (d < 60000)%N →
        run s [Disconnect "a"; Tick d; Timeout due "a"] = None) ∧
  ∃ s',
    run s [Disconnect "a"; Tick 60000; Timeout due "a"] = Some (Ok s') ∧
    JsMap.get "a" (users s') = None ∧
    (∀ k, k ≠ "a" → JsMap.get k (users s') = JsMap.get k (users s)).
Proof.
  intros s.
  apply (grace_period_purges "a" (User (JStr "alice") "online") s);
    [apply (bool_decide_unpack _); vm_compute; exact I | reflexivity].
Defined.

(** X7. The grace period, with a reconnection under the same id: if the id
    is connected again when the timer fires, the record survives.  It keeps
    the status ['offline'] that the disconnection gave it unless the socket
    has announced itself again (under a name that can be printed, as every
    string can), in which case it holds the new name and ['online']. *)
Theorem reconnect_within_grace A u name s :
  A ∈ sockets s →
  JsMap.get A (users s) = Some u →
  completes (to_string name) →
  let due := (clock s + 60000)%N in
  (∃ s',
     run s [Disconnect A; Connection A; Tick 60000; Timeout due A] = Some (Ok s') ∧
     A ∈ sockets s' ∧
     JsMap.get A (users s') = Some (User (username u) "offline")) ∧
  (∃ s',
     run s [Disconnect A; Connection A; UserConnected A name;
            Tick 60000; Timeout due A] = Some (Ok s') ∧
     A ∈ sockets s' ∧
     JsMap.get A (users s') = Some (User name "online")).
Proof.
  intros Hlive Hrec Hname due.
  assert (A ∉ sockets s ∖ {[A]}) as Hgone.
  { intros [_ Hn]%elem_of_difference. apply Hn. by apply elem_of_singleton. }
  assert (A ∈ sockets s ∖ {[A]} ∪ {[A]}) as Hback.
  { apply elem_of_union. right. by apply elem_of_singleton. }
  assert (∀ s0, sockets s0 = sockets s ∖ {[A]} →
            step s0 (Connection A)
            = Some (Ok (with_sockets (λ live, live ∪ {[A]}) s0))) as Hconn.
  { intros s0 Hs0. simpl. rewrite Hs0. by rewrite decide_False. }
  split.
  - rewrite (run_cons _ _ _ _ (step_Disconnect_joined A u s Hlive Hrec)).
    erewrite run_cons by (apply Hconn; reflexivity).
    erewrite run_cons by reflexivity.
    match goal with |- context [run ?s2 [Timeout due A]] =>
      destruct (step_Timeout due A s2) as (ts & _ & Hfire)
    end.
    { cbn. apply elem_of_app. right. left. }
    { cbn. lia. }
    rewrite (run_cons _ _ _ _ Hfire).
    cbn [run sockets with_clock with_sockets]. rewrite decide_True by done.
    eexists. split; [done|]. cbn. split; [done|].
    apply JsMapFacts.get_set_eq.
  - rewrite (run_cons _ _ _ _ (step_Disconnect_joined A u s Hlive Hrec)).
    erewrite run_cons by (apply Hconn; reflexivity).
    erewrite run_cons; cycle 1.
    { simpl. rewrite decide_True by done.
      by rewrite exec_on_user_connected_ok. }
    erewrite run_cons by reflexivity.
    match goal with |- context [run ?s2 [Timeout due A]] =>
      destruct (step_Timeout due A s2) as (ts & _ & Hfire)
    end.
    { cbn. apply elem_of_app. right. left. }
    { cbn. lia. }
    rewrite (run_cons _ _ _ _ Hfire).
    cbn [run sockets with_clock with_sockets]. rewrite decide_True by done.
    eexists. split; [done|]. cbn. split; [done|].
    apply JsMapFacts.get_set_eq.
Qed.

Lemma reconnect_within_grace_witness :
  let s := {| users := [("a", User (JStr "alice") "online")];
              sockets := {["a"; "b"]}; timers := []; outbox := [];
              clock := 1000 |} in
  let due := (clock s + 60000)%N in
  (∃ s',
     run s [Disconnect "a"; Connection "a"; Tick 60000; Timeout due "a"]
       = Some (Ok s') ∧
     "a" ∈ sockets s' ∧
     JsMap.get "a" (users s') = Some (User (JStr "alice") "offline")) ∧
  (∃ s',
     run s [Disconnect "a"; Connection "a"; UserConnected "a" (JStr "ally");
            Tick 60000; Timeout due "a"] = Some (Ok s') ∧
     "a" ∈ sockets s' ∧
     JsMap.get "a" (users s') = Some (User (JStr "ally") "online")).
Proof.
  intros s.
  apply (reconnect_within_grace "a" (User (JStr "alice") "online") (JStr "ally") s);
    [apply (bool_decide_unpack _); vm_compute; exact I | reflexivity
    | eexists; reflexivity].
Defined.

(** X8. Messages and typing indicators are pure relays: a [send_message]
    or [typing] event that is handled without throwing changes neither the
    registry, nor the pending timers, nor the set of connections, nor the
    clock, and the packets written before it stay as they were; all it can
    do is append packets. *)
Theorem relay_events_only_append s a s' :
  (∃ sid x, a = SendMessage sid x ∨ a = Typing sid x) →
  step s a = Some (Ok s') →
  users s' = users s ∧ timers s' = timers s ∧
  sockets s' = sockets s ∧ clock s' = clock s ∧
  outbox s `prefix_of` outbox s'.
Proof.
  intros (sid & x & [-> | ->]) Hstep; apply step_inv in Hstep as [_ Hexec].
  - destruct (get_prop "to" x) as [to|e1] eqn:Hto;
      [destruct (get_prop "message" x) as [message|e2] eqn:Hmsg|].
    + rewrite (exec_on_send_message _ _ _ _ _ Hto Hmsg) in Hexec.
      injection Hexec as <-. cbn. split_and!; try done. by apply prefix_app_r.
    + unfold exec, on_send_message, mbind, M_bind, lift in Hexec.
      by rewrite Hto, Hmsg in Hexec.
    + unfold exec, on_send_message, mbind, M_bind, lift in Hexec.
      by rewrite Hto in Hexec.
  - rewrite exec_on_typing in Hexec.
    destruct (JsMap.get sid (users s)); injection Hexec as <-; cbn;
      split_and!; try done. by apply prefix_app_r.
Qed.

Lemma relay_events_only_append_witness :
  let s := {| users := [("a", User (JStr "alice") "online")];
              sockets := {["a"; "b"]}; timers := [(5%N, "z")]; outbox := [];
              clock := 1 |} in
  ∃ s',
    step s (Typing "a" (JBool true)) = Some (Ok s') ∧
    users s' = users s ∧ timers s' = timers s ∧
    sockets s' = sockets s ∧ clock s' = clock s ∧
    outbox s `prefix_of` outbox s'.
Proof.
  intros s. eexists. split; [vm_compute; reflexivity|].
  eapply (relay_events_only_append s (Typing "a" (JBool true))).
  - exists "a", (JBool true). by right.
  - vm_compute. reflexivity.
Defined.

Lemma step_no_record sid s a s' :
  step s a = Some (Ok s') →
  (∀ name, a ≠ UserConnected sid name) →
  JsMap.get sid (users s) = None →
  JsMap.get sid (users s') = None.
Proof.
  intros Hstep Hnj Hnone. apply step_inv in Hstep.
  destruct a as [k|k name|k data|k b|k|due k|d].
  - by destruct Hstep as [_ ->].
  - destruct Hstep as [_ Hexec]. rewrite exec_on_user_connected in Hexec.
    destruct (to_string name); [|done]. injection Hexec as <-. cbn. rewrite JsMapFacts.get_set_ne; [done|].
    intros ->. by apply (Hnj name).
  - destruct Hstep as [_ Hexec].
    apply on_send_message_frame in Hexec as (-> & _). done.
  - destruct Hstep as [_ Hexec]. rewrite exec_on_typing in Hexec.
    destruct (JsMap.get k (users s)); by injection Hexec as <-.
  - destruct Hstep as [_ Hexec]. rewrite exec_on_disconnect in Hexec.
    cbn in Hexec. destruct (JsMap.get k (users s)) as [u|] eqn:Hk;
      injection Hexec as <-; cbn; [|done].
    rewrite JsMapFacts.get_set_ne; [done|]. intros ->. congruence.
  - destruct Hstep as (ts & _ & _ & Hexec).
    rewrite exec_grace_callback in Hexec. injection Hexec as <-. cbn.
    destruct (decide (k ∈ sockets s)); cbn; [done|].
    destruct (decide (sid = k)) as [->|Hne].
    + apply JsMapFacts.get_delete_eq.
    + by rewrite JsMapFacts.get_delete_ne.
  - by subst s'.
Qed.

(** X9. A record is only ever created by a join: at the end of any run of
    the server in which socket [sid] never emitted [user_connected], the
    registry holds no record for [sid], however often [sid] connected,
    sent messages, typed or disconnected. *)
Theorem no_record_before_join sid tr s :
  run init tr = Some (Ok s) →
  Forall (λ a, ∀ name, a ≠ UserConnected sid name) tr →
  JsMap.get sid (users s) = None.
Proof.
  assert (∀ s0, run s0 tr = Some (Ok s) →
            Forall (λ a, ∀ name, a ≠ UserConnected sid name) tr →
            JsMap.get sid (users s0) = None →
            JsMap.get sid (users s) = None) as Hgen.
  { induction tr as [|a tr IH]; intros s0 Hrun Hall Hnone.
    - simpl in Hrun. by injection Hrun as <-.
    - apply run_cons_inv in Hrun as (s1 & Hs1 & Hrun).
      apply Forall_cons in Hall as [Ha Hall].
      apply (IH s1 Hrun Hall). by apply (step_no_record sid s0 a). }
  intros Hrun Hall. by apply (Hgen init).
Qed.

Lemma no_record_before_join_witness :
  let tr := [Connection "a"; Connection "b"; UserConnected "a" (JStr "alice");
             SendMessage "b" (JObj [("message", JStr "hi")]);
             Typing "b" (JBool true); Disconnect "b"] in
  ∃ s, run init tr = Some (Ok s) ∧ JsMap.get "b" (users s) = None.
Proof.
  intros tr. eexists. split; [vm_compute; reflexivity|].
  eapply (no_record_before_join "b" tr).
  - vm_compute. reflexivity.
  - repeat constructor; discriminate.
Defined.

(** X11. At the end of any run of the server every record is marked
    ['online'] or ['offline'], and a record marked ['online'] belongs to a
    socket that is connected. *)
Theorem online_record_is_connected tr s sid u :
  run init tr = Some (Ok s) →
  JsMap.get sid (users s) = Some u →
  (status u = "online" ∨ status u = "offline") ∧
  (status u = "online" → sid ∈ sockets s).
Proof.
  intros Hrun Hrec.
  destruct (run_invariant presence_consistent step_presence_consistent
              tr init s Hrun init_presence_consistent) as (Hst & Hoff & _).
  split; [by apply (Hst sid)|]. intros Hon.
  destruct (decide (sid ∈ sockets s)) as [|Hnin]; [done|].
  destruct (Hoff sid u Hrec Hnin) as [Hoffl _]. congruence.
Qed.

Lemma online_record_is_connected_witness :
  let tr := [Connection "a"; UserConnected "a" (JStr "alice"); Connection "b";
             UserConnected "b" (JStr "bob"); Disconnect "b"] in
  ∃ s,
    run init tr = Some (Ok s) ∧
    JsMap.get "a" (users s) = Some (User (JStr "alice") "online") ∧
    (status (User (JStr "alice") "online") = "online"
     ∨ status (User (JStr "alice") "online") = "offline") ∧
    (status (User (JStr "alice") "online") = "online" → "a" ∈ sockets s).
Proof.
  intros tr. eexists. split; [vm_compute; reflexivity|].
  split; [reflexivity|].
  eapply (online_record_is_connected tr _ "a").
  - vm_compute. reflexivity.
  - reflexivity.
Defined.

(** X12. No record is left behind: at the end of any run of the server, the
    record of an id that is not connected is marked ['offline'] and has a
    grace timer pending that comes due within 60000 ms. *)
Theorem disconnected_record_awaits_removal tr s sid u :
  run init tr = Some (Ok s) →
  JsMap.get sid (users s) = Some u →
  sid ∉ sockets s →
  status u = "offline" ∧
  ∃ due, (due, sid) ∈ timers s ∧ (due ≤ clock s + 60000)%N.
Proof.
  intros Hrun Hrec Hnin.
  destruct (run_invariant presence_consistent step_presence_consistent
              tr init s Hrun init_presence_consistent) as (_ & Hoff & Hdue).
  destruct (Hoff sid u Hrec Hnin) as [Hst [due Hin]].
  split; [done|]. exists due. split; [done|]. by apply (Hdue due sid).
Qed.

Lemma disconnected_record_awaits_removal_witness :
  let tr := [Connection "a"; UserConnected "a" (JStr "alice"); Tick 500;
             Disconnect "a"; Tick 1000] in
  ∃ s,
    run init tr = Some (Ok s) ∧
    status (User (JStr "alice") "offline") = "offline" ∧
    ∃ due, (due, "a") ∈ timers s ∧ (due ≤ clock s + 60000)%N.
Proof.
  intros tr. eexists. split; [vm_compute; reflexivity|].
  eapply (disconnected_record_awaits_removal tr _ "a").
  - vm_compute. reflexivity.
  - reflexivity.
  - apply (bool_decide_unpack _). vm_compute. exact I.
Defined.

Lemma step_names_printable s a s' :
  step s a = Some (Ok s') →
  (∀ sid u, JsMap.get sid (users s) = Some u → completes (to_string (username u))) →
  (∀ sid u, JsMap.get sid (users s') = Some u → completes (to_string (username u))).
Proof.
  intros Hstep Hinv. apply step_inv in Hstep.
  destruct a as [k|k name|k data|k b|k|due k|d].
  - by destruct Hstep as [_ ->].
  - destruct Hstep as [_ Hexec]. rewrite exec_on_user_connected in Hexec.
    destruct (to_string name) as [str|e] eqn:Hname; [|done].
    injection Hexec as <-. cbn.
    intros sid u [[-> ->]|[_ Hu]]%get_set_Some; [by exists str|eauto].
  - destruct Hstep as [_ Hexec].
    apply on_send_message_frame in Hexec as (-> & _). done.
  - destruct Hstep as [_ Hexec]. rewrite exec_on_typing in Hexec.
    destruct (JsMap.get k (users s)); by injection Hexec as <-.
  - destruct Hstep as [_ Hexec]. rewrite exec_on_disconnect in Hexec.
    cbn in Hexec. destruct (JsMap.get k (users s)) as [u0|] eqn:Hk;
      injection Hexec as <-; cbn; [|done].
    intros sid u [[-> ->]|[_ Hu]]%get_set_Some; cbn; eauto.
  - destruct Hstep as (ts & _ & _ & Hexec).
    rewrite exec_grace_callback in Hexec. injection Hexec as <-. cbn.
    destruct (decide (k ∈ sockets s)); cbn; [done|].
    intros sid u [_ Hu]%get_delete_Some. eauto.
  - by subst s'.
Qed.

(** X16. At the end of any run of the server every name in the registry is
    one that can be printed: a [user_connected] with any other name throws
    in its log line and ends the run.  So the log line of the [disconnect]
    handler, which prints the stored name, finds nothing it cannot
    print. *)
Theorem run_names_printable tr s sid u :
  run init tr = Some (Ok s) →
  JsMap.get sid (users s) = Some u →
  completes (to_string (username u)).
Proof.
  intros Hrun. revert sid u.
  apply (run_invariant
           (λ s, ∀ sid u, JsMap.get sid (users s) = Some u →
                          completes (to_string (username u)))
           step_names_printable tr init s Hrun).
  by intros sid u.
Qed.

Lemma run_names_printable_witness :
  let tr := [Connection "a"; UserConnected "a" (JArr [JStr "al"; JNum 7; JNull]);
             Connection "b"; Disconnect "a"] in
  ∃ s,
    run init tr = Some (Ok s) ∧
    JsMap.get "a" (users s) = Some (User (JArr [JStr "al"; JNum 7; JNull]) "offline") ∧
    completes (to_string (JArr [JStr "al"; JNum 7; JNull])).
Proof.
  intros tr. eexists. split; [vm_compute; reflexivity|].
  split; [reflexivity|].
  eapply (run_names_printable tr _ "a"
            (User (JArr [JStr "al"; JNum 7; JNull]) "offline")).
  - vm_compute. reflexivity.
  - reflexivity.
Defined.

(** X13. The name given at the join is the name later events carry.  After
    [user_connected] with [name] (a name that can be printed), a [typing]
    event from the same socket reaches every other connected socket with
    [name] as it was given, and a [send_message] without target reaches
    them with [name] if it is truthy and with ['Unknown'] if it is not (an
    empty name): the two handlers disagree on a falsy name. *)
Theorem joined_name_on_later_events sid name fields isTyping s :
  completes (to_string name) →
  truthy (default JUndefined (assoc "to" fields)) = false →
  ∃ s1 s2 s3 new2 new3,
    exec (on_user_connected sid name) s = Ok s1 ∧
    exec (on_send_message sid (JObj fields)) s1 = Ok s2 ∧
    outbox s2 = outbox s1 ++ new2 ∧
    (∀ c, received c new2 =
            if decide (c ∈ sockets s ∧ c ≠ sid)
            then [receive_message sid
                    (if truthy name then name else JStr "Unknown")
                    (default JUndefined (assoc "message" fields))
                    false (clock s)]
            else []) ∧
    exec (on_typing sid isTyping) s1 = Ok s3 ∧
    outbox s3 = outbox s1 ++ new3 ∧
    (∀ c, received c new3 =
            if decide (c ∈ sockets s ∧ c ≠ sid)
            then [user_typing sid name isTyping]
            else []).
Proof.
  intros Hname Hfalsy.
  eexists _, _, _, _, _. split; [by apply exec_on_user_connected_ok|].
  split; [by apply exec_on_send_message|]. cbn [outbox users clock sockets].
  split; [done|]. split.
  - intros c. cbn [get_prop] . rewrite Hfalsy, JsMapFacts.get_set_eq.
    apply received_broadcast.
  - rewrite exec_on_typing. cbn [users]. rewrite JsMapFacts.get_set_eq.
    split; [done|]. cbn [outbox sockets]. split; [done|].
    intros c. apply received_broadcast.
Qed.

Lemma joined_name_on_later_events_witness :
  let s := with_sockets (λ _, {["a"; "b"]}) init in
  let fields := [("message", JStr "hi")] in
  ∃ s1 s2 s3 new2 new3,
    exec (on_user_connected "a" (JStr "")) s = Ok s1 ∧
    exec (on_send_message "a" (JObj fields)) s1 = Ok s2 ∧
    outbox s2 = outbox s1 ++ new2 ∧
    (∀ c, received c new2 =
            if decide (c ∈ sockets s ∧ c ≠ "a")
            then [receive_message "a"
                    (if truthy (JStr "") then JStr "" else JStr "Unknown")
                    (default JUndefined (assoc "message" fields))
                    false (clock s)]
            else []) ∧
    exec (on_typing "a" (JBool true)) s1 = Ok s3 ∧
    outbox s3 = outbox s1 ++ new3 ∧
    (∀ c, received c new3 =
            if decide (c ∈ sockets s ∧ c ≠ "a")
            then [user_typing "a" (JStr "") (JBool true)]
            else []).
Proof.
  intros s fields.
  apply (joined_name_on_later_events "a" (JStr "") fields (JBool true) s);
    [eexists; reflexivity | reflexivity].
Defined.
